(** * The navigation stack of the terminal UI (pkg/tui/stack.go)

    A shallow embedding of [StackModel] and of its methods [Push], [Pop],
    [Init], [Update], [StackSizeMsg], [header] and [footer], together with
    the small part of the Bubble Tea, Bubbles, Lip Gloss and clipboard
    libraries that those methods call.

    Go's [int] is embedded as [Z] with the 64-bit wrap-around written out,
    slices as lists (bottom of the stack first), a nil-able pointer as an
    [option], an index that is out of range as [None] in the result of the
    method (the Go program panics there). *)

From stdpp Require Import base list strings.
From Stdlib Require Import ZArith Lia.

Local Open Scope Z_scope.

#[local] Set Warnings "-register-all".

(** ** Machine integers *)

Module Int.

Definition min_int : Z := - 2 ^ 63.
Definition max_int : Z := 2 ^ 63 - 1.

(** The value an [int] holds after an arithmetic operation whose exact
    result is [z]. *)
Definition wrap (z : Z) : Z := (z + 2 ^ 63) mod 2 ^ 64 - 2 ^ 63.

Definition in_range (z : Z) : Prop := min_int <= z <= max_int.

Definition sub (a b : Z) : Z := wrap (a - b).
Definition add (a b : Z) : Z := wrap (a + b).

End Int.

(** ** Bubble Tea: messages and commands *)

Inductive KeyType : Type :=
| KeyCtrlC
| KeyCtrlD
| KeyCtrlS
| KeyEnter
| KeyEsc
| KeyUp
| KeyDown
| KeyRunes
| KeyOther (code : Z).

(** [tea.Key]; the field [Type] is spelled [Type_]. *)
Record Key : Type := MkKey {
  Type_ : KeyType;
  Runes : string;
  Alt : bool
}.

(** The value of type [tui.StackSizeMsg]. *)
Record StackSizeMsg : Type := MkStackSizeMsg {
  Width : Z;
  Height : Z;
  Top : Z
}.

Module tea.

(** [Msg] is the empty interface in Go: the constructors are the dynamic
    types that the type switch of [Update] tells apart, and [OtherMsg]
    stands for every other type; [ErrorMsg Err] is the [ErrorMsg] of an
    error that is not nil and reads [Err] (the one with a nil error is
    [StackView.NilErrorMsg], further down).  A [Cmd] is a nil-able
    [func() Msg]; it
    is embedded as the description of what the function does when the
    runtime calls it. *)
Inductive Msg : Type :=
| KeyMsg (k : Key)
| WindowSizeMsg (Width Height : Z)
| ClearScreenMsg (NextMsg : Msg)
| LoadingDataMsg (task : Cmd)
| DoneLoadingDataMsg
| ErrorMsg (Err : string)
| TickMsg (ID tag : Z)
| DoneMsg (Message : string)
| SizeMsg (s : StackSizeMsg)
| OtherMsg (payload : string)
with Cmd : Type :=
| nil                              (* the nil command *)
| Quit                             (* tea.Quit *)
| Println (line : string)          (* tea.Println(line) *)
| batch (cmds : list Cmd)          (* returns BatchMsg(cmds) *)
| sequence (cmds : list Cmd)       (* returns sequenceMsg(cmds) *)
| Tick (fps : Z) (m : Msg)         (* tea.Tick: m after a delay *)
| Return (m : Msg)                 (* func() tea.Msg { return m } *)
| StackSize                        (* func() tea.Msg { return m.StackSizeMsg() } *)
| Task (name : string).            (* work of a screen, opaque here *)

Definition is_nil (c : Cmd) : bool :=
  match c with nil => true | _ => false end.

(** [compactCmds]: nil commands are dropped; no command left gives nil,
    one command left is returned as it is. *)
Definition compactCmds (wrapper : list Cmd -> Cmd) (cmds : list Cmd) : Cmd :=
  let validCmds := filter (fun c => is_nil c = false) cmds in
  match validCmds with
  | [] => nil
  | [c] => c
  | _ => wrapper validCmds
  end.

Definition Batch (cmds : list Cmd) : Cmd := compactCmds batch cmds.
Definition Sequence (cmds : list Cmd) : Cmd := compactCmds sequence cmds.

(** The commands that the runtime ends up running for [c], batches and
    sequences opened up. *)
Fixpoint leaves (c : Cmd) : list Cmd :=
  match c with
  | nil => []
  | batch cs | sequence cs =>
      (fix go (l : list Cmd) : list Cmd :=
         match l with
         | [] => []
         | x :: r => leaves x ++ go r
         end) cs
  | _ => [c]
  end.

(** The runtime ends the session when a command it runs is [Quit]. *)
Definition ends_session (c : Cmd) : Prop := Quit ∈ leaves c.

(** The interface [tea.Model], for a type [S] of screens. *)
Class Model (S : Type) : Type := {
  Init : S -> Cmd;
  Update : S -> Msg -> S * Cmd;
  View : S -> string
}.

End tea.

(** ** Lip Gloss *)

Module lipgloss.

(** [strings.Count(str, "\n")]. *)
Fixpoint count_newlines (str : string) : Z :=
  match str with
  | EmptyString => 0
  | String c rest =>
      (if Ascii.eqb c (Ascii.ascii_of_nat 10) then 1 else 0) + count_newlines rest
  end.

(** [lipgloss.Height]: the number of lines of [str]. *)
Definition Height (str : string) : Z := Int.add (count_newlines str) 1.

End lipgloss.

(** The four styles that the stack renders with.  [stackHeaderStyle] and
    [stackInfoStyle] are the package variables of stack.go; [CommandKey] and
    [CommandTitle] belong to the package [renderstyle].  Each one is taken
    as its [Render] function. *)
Class Theme : Type := {
  stackHeaderStyle : string -> string;
  stackInfoStyle : string -> string;
  CommandKey : string -> string;
  CommandTitle : string -> string
}.

(** ** Bubbles: the spinner *)

Module spinner.

Record Model : Type := MkModel {
  frame : Z;
  id : Z;
  tag : Z
}.

(** [spinner.Dot] has eight frames and runs at ten frames a second. *)
Definition Dot_frames : Z := 8.
Definition Dot_FPS : Z := 100.

(** [Model.Tick]: the command value bound to the spinner at hand. *)
Definition Tick (m : Model) : tea.Cmd := tea.Return (tea.TickMsg (id m) (tag m)).

(** [Model.Update]: a tick of another spinner, or a stale tick, is
    rejected; an accepted one advances the frame and schedules the next. *)
Definition Update (m : Model) (msg : tea.Msg) : Model * tea.Cmd :=
  match msg with
  | tea.TickMsg ID t =>
      if (0 <? ID) && negb (ID =? id m) then (m, tea.nil)
      else if (0 <? t) && negb (t =? tag m) then (m, tea.nil)
      else
        let f := Int.add (frame m) 1 in
        let f := if Dot_frames <=? f then 0 else f in
        let t' := Int.add (tag m) 1 in
        (MkModel f (id m) t', tea.Tick Dot_FPS (tea.TickMsg (id m) t'))
  | _ => (m, tea.nil)
  end.

End spinner.

(** ** The world outside the program: the system clipboard and the
    counter that [spinner.New] draws identifiers from *)

Record World : Type := MkWorld {
  clipboardText : string;
  clipboardWorks : bool;
  lastSpinnerID : Z
}.

Module clipboard.

(** [clipboard.WriteAll]: the new world and the error, if any. *)
Definition WriteAll (w : World) (text : string) : World * option string :=
  if clipboardWorks w
  then (MkWorld text (clipboardWorks w) (lastSpinnerID w), None)
  else (w, Some "clipboard unavailable").

End clipboard.

(** ** The stack *)

Record ModelWithCmd (Screen : Type) : Type := MkModelWithCmd {
  Model : Screen;
  Cmd : string;
  Breadcrumb : string
}.
Arguments MkModelWithCmd {Screen} _ _ _.
Arguments Model {Screen} _.
Arguments Cmd {Screen} _.
Arguments Breadcrumb {Screen} _.

Record StackModel (Screen : Type) : Type := MkStackModel {
  loadingSpinner : option spinner.Model;
  stack : list (ModelWithCmd Screen);
  width : Z;
  height : Z
}.
Arguments MkStackModel {Screen} _ _ _ _.
Arguments loadingSpinner {Screen} _.
Arguments stack {Screen} _.
Arguments width {Screen} _.
Arguments height {Screen} _.

(** [NewErrorModel] builds the screen that displays an error; its code is
    in another file of the package, so the stack takes it as given. *)
Class ErrorScreen (Screen : Type) : Type :=
  NewErrorModel : string -> Screen.

(** [strings.Join]. *)
Fixpoint Join (elems : list string) (sep : string) : string :=
  match elems with
  | [] => ""
  | [a] => a
  | a :: rest => a +:+ sep +:+ Join rest sep
  end.

(** A method that may panic gives back an [option], [None] being the
    panic; the steps of such a method are chained with the [option] monad
    ([x ← e; k]). *)

Module Stack.
Section WithScreens.

Context {Screen : Type} {screens : tea.Model Screen}
        {errors : ErrorScreen Screen} {theme : Theme}.

Definition NewStack : StackModel Screen := MkStackModel None [] 0 0.

(** [spinner.New] takes the next identifier; the frame starts at 0. *)
Definition newSpinner (w : World) : spinner.Model * World :=
  let i := Int.add (lastSpinnerID w) 1 in
  (spinner.MkModel 0 i 0, MkWorld (clipboardText w) (clipboardWorks w) i).

Definition set_stack (m : StackModel Screen) (s : list (ModelWithCmd Screen)) : StackModel Screen :=
  MkStackModel (loadingSpinner m) s (width m) (height m).

Definition set_loadingSpinner (m : StackModel Screen) (s : option spinner.Model) : StackModel Screen :=
  MkStackModel s (stack m) (width m) (height m).

Definition set_size (m : StackModel Screen) (w h : Z) : StackModel Screen :=
  MkStackModel (loadingSpinner m) (stack m) w h.

(** [m.stack[len(m.stack)-1]]; Go panics when the stack is empty. *)
Definition top (m : StackModel Screen) : option (ModelWithCmd Screen) :=
  match length (stack m) with
  | O => None
  | S i => stack m !! i
  end.

Definition Push (m : StackModel Screen) (model : ModelWithCmd Screen) : StackModel Screen * tea.Cmd :=
  (set_stack m (stack m ++ [model]),
   tea.Batch [tea.Init (Model model); tea.StackSize]).

Definition Pop (m : StackModel Screen) : StackModel Screen :=
  if (0 <? length (stack m))%nat
  then set_stack m (take (length (stack m) - 1) (stack m))
  else m.

Definition Init (m : StackModel Screen) : tea.Cmd :=
  let cmd :=
    fold_left (fun cmd model => tea.Batch [cmd; tea.Init (Model model)])
              (stack m) tea.nil in
  tea.Batch [cmd].

Definition header (m : StackModel Screen) : string :=
  let breadCrumbs :=
    fold_left (fun breadCrumbs model =>
                 if negb (String.eqb (Breadcrumb model) "")
                 then breadCrumbs ++ [stackInfoStyle (Breadcrumb model)]
                 else breadCrumbs)
              (stack m) [] in
  stackHeaderStyle (Join breadCrumbs " > ").

Definition quitCommand : string := CommandKey "[Ctrl+C]" +:+ " Quit".
Definition prevCommand : string := CommandKey "[Ctrl+D]" +:+ " Previous command".
Definition saveToClipboard : string :=
  CommandKey "[Ctrl+S]" +:+ " Copy command to clipboard".

(** The slice [commands] that [footer] builds. *)
Definition footerCommands (m : StackModel Screen) : option (list string) :=
  let commands := [] ++ [quitCommand] in
  let commands :=
    if (1 <? length (stack m))%nat then commands ++ [prevCommand] else commands in
  t ← top m;
  let commands :=
    if negb (String.eqb (Cmd t) "") then commands ++ [saveToClipboard] else commands in
  Some commands.

Definition footer (m : StackModel Screen) : option string :=
  commands ← footerCommands m;
  Some (CommandTitle "Navigation: " +:+ Join commands " ").

(** The method [StackSizeMsg] of the stack. *)
Definition StackSizeMsg (m : StackModel Screen) : option StackSizeMsg :=
  f ← footer m;
  Some (MkStackSizeMsg
          (width m)
          (Int.sub (Int.sub (height m) (lipgloss.Height (header m)))
                   (lipgloss.Height f))
          (lipgloss.Height (header m))).

(** Lines 148 to 153 of [Update]: the message goes to the top screen,
    which is replaced by the screen it answers with. *)
Definition forward (w : World) (m : StackModel Screen) (subMsg : tea.Msg)
  : option (World * StackModel Screen * tea.Cmd) :=
  if (0 <? length (stack m))%nat then
    t ← top m;
    let '(model', cmd) := tea.Update (Model t) subMsg in
    Some (w,
          set_stack m (<[(length (stack m) - 1)%nat :=
                          MkModelWithCmd model' (Cmd t) (Breadcrumb t)]> (stack m)),
          cmd)
  else Some (w, m, tea.nil).

(** Lines 103 to 108 of [Update], the body of the case [tea.KeyCtrlS]:
    the command of the top entry is written to the clipboard, and a failure
    to write pushes an error screen; what [Push] returns is dropped. *)
Definition copyCommand (w : World) (m : StackModel Screen)
  : option (World * StackModel Screen) :=
  if (0 <? length (stack m))%nat then
    t ← top m;
    let '(w, err) := clipboard.WriteAll w (Cmd t) in
    match err with
    | Some _ =>
        Some (w, fst (Push m (MkModelWithCmd
                                (NewErrorModel "Failed to copy command to clipboard")
                                "" "")))
    | None => Some (w, m)
    end
  else Some (w, m).

Definition Update (w : World) (m : StackModel Screen) (msg : tea.Msg)
  : option (World * StackModel Screen * tea.Cmd) :=
  if (length (stack m) =? 0)%nat then Some (w, m, tea.Quit)
  else
    match msg with
    | tea.KeyMsg k =>
        match Type_ k with
        | KeyCtrlC => Some (w, m, tea.Quit)
        | KeyCtrlD =>
            let m := Pop m in
            if (length (stack m) =? 0)%nat then Some (w, m, tea.Quit)
            else Some (w, m, Init m)
        | KeyCtrlS =>
            '(w, m) ← copyCommand w m;
            forward w m msg
        | _ => forward w m msg
        end
    | tea.ClearScreenMsg NextMsg =>
        Some (w, set_stack m (take 0 (stack m)), tea.Return NextMsg)
    | tea.LoadingDataMsg task =>
        let '(spin, w) := newSpinner w in
        Some (w, set_loadingSpinner m (Some spin),
              tea.Batch [spinner.Tick spin; task])
    | tea.DoneLoadingDataMsg =>
        Some (w, set_loadingSpinner m None, tea.nil)
    | tea.ErrorMsg Err =>
        Some (w, fst (Push m (MkModelWithCmd (NewErrorModel Err) "" "")), tea.nil)
    | tea.TickMsg _ _ =>
        match loadingSpinner m with
        | Some s =>
            let '(spin, cmd) := spinner.Update s msg in
            Some (w, set_loadingSpinner m (Some spin), cmd)
        | None => forward w m msg
        end
    | tea.DoneMsg Message =>
        let m := Pop m in
        if (length (stack m) =? 0)%nat
        then Some (w, m, tea.Sequence [tea.Println Message; tea.Quit])
        else Some (w, m, Init m)
    | tea.WindowSizeMsg Width Height =>
        let m := set_size m Width Height in
        subMsg ← StackSizeMsg m;
        forward w m (tea.SizeMsg subMsg)
    | _ => forward w m msg
    end.

(** What forwarding [msg] to the top entry [t] of [m] gives: the entry
    keeps its command and breadcrumb, its screen is the one that the
    screen's own [Update] answers with, and the command is that answer's. *)
Definition forwarded_to (w : World) (m : StackModel Screen)
    (t : ModelWithCmd Screen) (msg : tea.Msg)
  : option (World * StackModel Screen * tea.Cmd) :=
  Some (w,
        set_stack m
          (<[(length (stack m) - 1)%nat :=
              MkModelWithCmd (tea.Update (Model t) msg).1 (Cmd t) (Breadcrumb t)]>
             (stack m)),
        (tea.Update (Model t) msg).2).

(** The header as the specification words it: the breadcrumbs that are
    not empty, in the order of the stack from bottom to top, each in the
    info style, joined by the separator, the whole in the header style. *)
Definition header_by_spec (m : StackModel Screen) : string :=
  stackHeaderStyle
    (Join (stackInfoStyle <$>
             filter (fun b : string => b <> EmptyString) (Breadcrumb <$> stack m))
          " > ").

(** The loading indicators that are active: the field holds one or none. *)
Definition indicators (m : StackModel Screen) : list spinner.Model :=
  match loadingSpinner m with
  | Some s => [s]
  | None => []
  end.

(** A run of the event loop over the messages [msgs], in arrival order. *)
Fixpoint dispatch_all (w : World) (m : StackModel Screen) (msgs : list tea.Msg)
  : option (World * StackModel Screen) :=
  match msgs with
  | [] => Some (w, m)
  | msg :: rest =>
      '(w', m', _) ← Update w m msg;
      dispatch_all w' m' rest
  end.

End WithScreens.
End Stack.

(** ** The rest of the stack: rendering, and runs of operations *)

(** What [View] needs of Lip Gloss and of the spinner: [lipgloss.Place]
    with both positions at the centre, [lipgloss.JoinVertical] aligned to
    the left, and the [View] of the spinner. *)
Class Layout : Type := {
  Place : Z -> Z -> string -> string;
  JoinVertical : list string -> string;
  spinnerView : spinner.Model -> string
}.

Module StackView.
Section WithScreens.

Context {Screen : Type} {screens : tea.Model Screen}
        {errors : ErrorScreen Screen} {theme : Theme} {layout : Layout}.

(** The method [View] of the stack. *)
Definition View (m : StackModel Screen) : option string :=
  match loadingSpinner m with
  | Some s =>
      Some (Place (width m) (height m) (spinnerView s +:+ " Loading..."))
  | None =>
      if (length (stack m) =? 0)%nat then Some EmptyString
      else
        t ← Stack.top m;
        f ← Stack.footer m;
        Some (JoinVertical [Stack.header m; tea.View (Model t); f])
  end.

(** [Push] of each entry of [models] in turn, the commands dropped. *)
Definition push_all (m : StackModel Screen) (models : list (ModelWithCmd Screen))
  : StackModel Screen :=
  fold_left (fun m model => (Stack.Push m model).1) models m.

(** [Pop] called [n] times. *)
Definition pop_n (n : nat) (m : StackModel Screen) : StackModel Screen :=
  Nat.iter n Stack.Pop m.

(** A run of the event loop that keeps the command of each dispatch. *)
Fixpoint dispatch_trace (w : World) (m : StackModel Screen) (msgs : list tea.Msg)
  : option (World * StackModel Screen * list tea.Cmd) :=
  match msgs with
  | [] => Some (w, m, [])
  | msg :: rest =>
      '(w1, m1, cmd) ← Stack.Update w m msg;
      '(w2, m2, cmds) ← dispatch_trace w1 m1 rest;
      Some (w2, m2, cmd :: cmds)
  end.




End WithScreens.
End StackView.

(** ** Two concrete instances, to run the stack on *)

Module Demo.

(** A screen that records every message it is sent and answers each with
    the task that bears its name, next to the error display. *)
Inductive Screen : Type :=
| Recorder (name : string) (seen : list tea.Msg)
| ErrorModel (DisplayError : string).

(** Modelled from the spec: the error screen of the package, whose code is
    with [NewErrorModel] in a file that is not at hand, is the "read-only
    error-display screen carrying the error's message": it starts nothing,
    reacts to nothing and shows its message. *)
#[global] Instance screen_model : tea.Model Screen := {
  Init s :=
    match s with
    | Recorder name _ => tea.Task name
    | ErrorModel _ => tea.nil
    end;
  Update s msg :=
    match s with
    | Recorder name seen => (Recorder name (seen ++ [msg]), tea.Task name)
    | ErrorModel e => (ErrorModel e, tea.nil)
    end;
  View s :=
    match s with
    | Recorder name _ => name
    | ErrorModel e => e
    end
}.

#[global] Instance error_screen : ErrorScreen Screen := ErrorModel.

Definition nl : string := String (Ascii.ascii_of_nat 10) EmptyString.

(** No styling at all. *)
Definition plain : Theme := {|
  stackHeaderStyle s := s;
  stackInfoStyle s := s;
  CommandKey s := s;
  CommandTitle s := s
|}.

(** A header with a margin of one line above and below, a footer with a
    margin of one line above. *)
Definition framed : Theme := {|
  stackHeaderStyle s := nl +:+ s +:+ nl;
  stackInfoStyle s := s;
  CommandKey s := s;
  CommandTitle s := nl +:+ s
|}.

Definition entry (name cmd crumb : string) : ModelWithCmd Screen :=
  MkModelWithCmd (Recorder name []) cmd crumb.

Definition services : ModelWithCmd Screen := entry "services" "" "Services".
Definition deploy : ModelWithCmd Screen :=
  entry "deploy" "render deploy svc-1" "Deploy".

Definition world : World := MkWorld "kept" true 0.
Definition world_without_clipboard : World := MkWorld "kept" false 0.

Definition stack_of (l : list (ModelWithCmd Screen)) : StackModel Screen :=
  MkStackModel None l 80 24.

Definition with_indicator (l : list (ModelWithCmd Screen)) : StackModel Screen :=
  MkStackModel (Some (spinner.MkModel 3 7 2)) l 80 24.

(** The messages that the top screen has been sent. *)
Definition seen_by_top (m : StackModel Screen) : list tea.Msg :=
  match Stack.top m with
  | Some (MkModelWithCmd (Recorder _ seen) _ _) => seen
  | _ => []
  end.

Definition CtrlC : tea.Msg := tea.KeyMsg (MkKey KeyCtrlC "" false).
Definition CtrlD : tea.Msg := tea.KeyMsg (MkKey KeyCtrlD "" false).
Definition CtrlS : tea.Msg := tea.KeyMsg (MkKey KeyCtrlS "" false).

End Demo.

(** ** The commands on resources (cmd/service.go), the resource service
    (pkg/resource) and the job repository (pkg/job/repo.go) *)

Module gostrings.

(** [strings.HasPrefix]. *)
Fixpoint HasPrefix (s prefix : string) {struct prefix} : bool :=
  match prefix with
  | EmptyString => true
  | String c prefix' =>
      match s with
      | EmptyString => false
      | String d s' => Ascii.eqb c d && HasPrefix s' prefix'
      end
  end.

(** [strings.Contains]: [substr] starts at some position of [s]. *)
Fixpoint Contains (s substr : string) {struct s} : bool :=
  HasPrefix s substr
  || match s with
     | EmptyString => false
     | String _ s' => Contains s' substr
     end.

End gostrings.

(** [strings.ToLower], which maps every letter of Unicode, is taken as
    given. *)
Class Casing : Type := ToLower : string -> string.

Module resource.

(** The interface [Resource], with the methods that the commands read
    (the two that return the environment and the project records are not
    called by them). *)
Class Resource (R : Type) : Type := {
  ID : R -> string;
  Name : R -> string;
  EnvironmentName : R -> string;
  ProjectName : R -> string;
  Type_ : R -> string
}.

(** What the resource service rests on: the two listings and the two
    restarts of the service and postgres packages, each with the error it
    may answer with ([inl] for a listing, [Some] for a restart), and the
    three prefixes of resource identifiers. *)
Class Backend (S P : Type) : Type := {
  ListServices : string + list S;
  ListPostgres : string + list P;
  RestartService : string -> option string;
  RestartPostgresDatabase : string -> option string;
  ServerResourceIDPrefix : string;
  PostgresResourceIDPrefix : string;
  CronjobResourceIDPrefix : string
}.

Section Service.

Context {S P : Type} {backend : Backend S P}.

(** [ListResources]: a resource is a service or a database. *)
Definition ListResources : string + list (S + P) :=
  match ListServices with
  | inl err => inl err
  | inr services =>
      match ListPostgres with
      | inl err => inl err
      | inr postgresDBs =>
          let resources := [] in
          let resources :=
            fold_left (fun resources svc => resources ++ [inl svc]) services resources in
          let resources :=
            fold_left (fun resources db => resources ++ [inr db]) postgresDBs resources in
          inr resources
      end
  end.

(** [RestartResource]: the error, or [None] for nil. *)
Definition RestartResource (id : string) : option string :=
  if gostrings.HasPrefix id ServerResourceIDPrefix then RestartService id
  else if gostrings.HasPrefix id PostgresResourceIDPrefix
  then RestartPostgresDatabase id
  else if gostrings.HasPrefix id CronjobResourceIDPrefix
  then Some "cron jobs cannot be restarted"
  else Some "unknown resource type".

End Service.

End resource.

Module cmd.

(** The interactive command that the action of a palette entry starts,
    with the input it is given; the commands themselves are in other
    files. *)
Inductive Interactive : Type :=
| InteractiveLogs (ResourceIDs : list string)
| InteractiveRestart (ResourceID : string)
| InteractivePSQL (PostgresID : string)
| InteractiveDeploy (ServiceID : string)
| InteractiveSSH (ServiceID : string).

(** The identifiers of the resources that an interactive command is
    started on. *)
Definition targets (i : Interactive) : list string :=
  match i with
  | InteractiveLogs ids => ids
  | InteractiveRestart id | InteractivePSQL id
  | InteractiveDeploy id | InteractiveSSH id => [id]
  end.

Record PaletteCommand : Type := MkPaletteCommand {
  Name : string;
  Description : string;
  Action : list string -> Interactive
}.

(** The resource types that [selectResource] names, constants of the
    postgres and service packages. *)
Class ResourceTypes : Type := {
  PostgresType : string;
  ServiceTypes : list string;
  WebServiceResourceType : string;
  PrivateServiceResourceType : string;
  BackgroundWorkerResourceType : string
}.

Section Commands.

Context {R : Type} {resources : resource.Resource R}
        {types : ResourceTypes} {casing : Casing}.

Definition formatResourceRow (r : R) : list string :=
  [resource.ID r; resource.Type_ r; resource.ProjectName r;
   resource.EnvironmentName r; resource.Name r].

(** The loop of [optionallyAddCommand] over the allowed types. *)
Fixpoint optionallyAddCommand_loop (commands : list PaletteCommand)
    (command : PaletteCommand) (allowedTypes : list string) (r : R)
  : list PaletteCommand :=
  match allowedTypes with
  | [] => commands
  | allowedType :: rest =>
      if String.eqb (resource.Type_ r) allowedType
      then commands ++ [command]
      else optionallyAddCommand_loop commands command rest r
  end.

Definition optionallyAddCommand (commands : list PaletteCommand)
    (command : PaletteCommand) (allowedTypes : list string) (r : R)
  : list PaletteCommand :=
  if (length allowedTypes =? 0)%nat then commands ++ [command]
  else optionallyAddCommand_loop commands command allowedTypes r.

(** The table [commandWithTypes] of [selectResource]. *)
Definition commandWithTypes (r : R) : list (PaletteCommand * list string) :=
  [ (MkPaletteCommand "logs" "View resource logs"
       (fun _ => InteractiveLogs [resource.ID r]), []);
    (MkPaletteCommand "restart" "Restart the service"
       (fun _ => InteractiveRestart (resource.ID r)), []);
    (MkPaletteCommand "psql" "Connect to the PostgreSQL database"
       (fun _ => InteractivePSQL (resource.ID r)), [PostgresType]);
    (MkPaletteCommand "deploy" "Deploy the service"
       (fun _ => InteractiveDeploy (resource.ID r)), ServiceTypes);
    (MkPaletteCommand "ssh" "SSH into the service"
       (fun _ => InteractiveSSH (resource.ID r)),
     [WebServiceResourceType; PrivateServiceResourceType;
      BackgroundWorkerResourceType]) ].

(** The slice [commands] that [selectResource] hands to the command
    palette. *)
Definition selectResource (r : R) : list PaletteCommand :=
  fold_left (fun commands c => optionallyAddCommand commands c.1 c.2 r)
            (commandWithTypes r) [].

(** The loop of [filterResource] over the fields. *)
Fixpoint filterResource_loop (searchFields : list string) (filter : string) : bool :=
  match searchFields with
  | [] => false
  | field :: rest =>
      if gostrings.Contains (ToLower field) filter then true
      else filterResource_loop rest filter
  end.

Definition filterResource (r : R) (filter : string) : bool :=
  filterResource_loop
    [resource.ID r; resource.Name r; resource.ProjectName r;
     resource.EnvironmentName r; resource.Type_ r]
    filter.

End Commands.

End cmd.

Module job.

(** A point in time, as [*time.Time] carries it. *)
Definition Time : Type := Z.

Record ListJobsInput : Type := MkListJobsInput {
  ServiceID : string;
  Status : list string;
  CreatedBefore : option Time;
  CreatedAfter : option Time;
  StartedBefore : option Time;
  StartedAfter : option Time;
  FinishedBefore : option Time;
  FinishedAfter : option Time
}.

(** The four constants of the type [client.ListJobParamsStatus] that
    [ListJobs] names. *)
Class Statuses (T : Type) : Type := {
  Failed : T;
  Pending : T;
  Running : T;
  Succeeded : T
}.

(** [client.ListJobParams], with the fields that [ListJobs] sets. *)
Record ListJobParams (T : Type) : Type := MkListJobParams {
  params_CreatedBefore : option Time;
  params_CreatedAfter : option Time;
  params_StartedBefore : option Time;
  params_StartedAfter : option Time;
  params_FinishedBefore : option Time;
  params_FinishedAfter : option Time;
  params_Limit : option Z;
  params_Status : option (list T)
}.
Arguments MkListJobParams {T} _ _ _ _ _ _ _ _.
Arguments params_Limit {T} _.
Arguments params_Status {T} _.

Section Repo.

Context {T : Type} {statuses : Statuses T}.

(** The first loop of [ListJobs] (lines 33 to 47): the filters so far, or
    the error for the first status that is none of the four. *)
Fixpoint statusFilters_loop (input_Status : list string) (statusFilters : list T)
  : string + list T :=
  match input_Status with
  | [] => inr statusFilters
  | status :: rest =>
      if String.eqb status "failed"
      then statusFilters_loop rest (statusFilters ++ [Failed])
      else if String.eqb status "pending"
      then statusFilters_loop rest (statusFilters ++ [Pending])
      else if String.eqb status "running"
      then statusFilters_loop rest (statusFilters ++ [Running])
      else if String.eqb status "succeeded"
      then statusFilters_loop rest (statusFilters ++ [Succeeded])
      else inl ("invalid status: " +:+ status)
  end.

(** [ListJobs] up to the request (lines 33 to 61): the error it returns
    before any request, or the parameters of the request. *)
Definition ListJobs_params (input : ListJobsInput) : string + ListJobParams T :=
  match statusFilters_loop (Status input) [] with
  | inl err => inl err
  | inr statusFilters =>
      let params :=
        MkListJobParams (CreatedBefore input) (CreatedAfter input)
          (StartedBefore input) (StartedAfter input)
          (FinishedBefore input) (FinishedAfter input) (Some 100) None in
      inr (if (0 <? length statusFilters)%nat
           then MkListJobParams (CreatedBefore input) (CreatedAfter input)
                  (StartedBefore input) (StartedAfter input)
                  (FinishedBefore input) (FinishedAfter input) (Some 100)
                  (Some statusFilters)
           else params)
  end.

(** The filter that a status name stands for, if it is one of the four. *)
Definition status_of_name (status : string) : option T :=
  if String.eqb status "failed" then Some Failed
  else if String.eqb status "pending" then Some Pending
  else if String.eqb status "running" then Some Running
  else if String.eqb status "succeeded" then Some Succeeded
  else None.

End Repo.

End job.

(** ** Concrete resources, to run the commands on *)

Module Samples.

Record Res : Type := MkRes {
  res_id : string;
  res_name : string;
  res_env : string;
  res_project : string;
  res_type : string
}.

#[global] Instance res_resource : resource.Resource Res := {
  ID := res_id;
  Name := res_name;
  EnvironmentName := res_env;
  ProjectName := res_project;
  Type_ := res_type
}.

Definition types : cmd.ResourceTypes := {|
  cmd.PostgresType := "postgres";
  cmd.ServiceTypes := ["web_service"; "cron_job"];
  cmd.WebServiceResourceType := "web_service";
  cmd.PrivateServiceResourceType := "private_service";
  cmd.BackgroundWorkerResourceType := "background_worker"
|}.

(** A casing that leaves the text as it is, enough for texts in lower
    case. *)
Definition as_is : Casing := fun s => s.

Definition db : Res := MkRes "dpg-1" "orders" "prod" "shop" "postgres".
Definition web : Res := MkRes "srv-1" "api" "prod" "shop" "web_service".

Inductive JobStatus : Type := JFailed | JPending | JRunning | JSucceeded.

#[global] Instance job_statuses : job.Statuses JobStatus := {
  Failed := JFailed;
  Pending := JPending;
  Running := JRunning;
  Succeeded := JSucceeded
}.

Definition backend (restart : string -> option string) : resource.Backend Res Res := {|
  resource.ListServices := inr [web];
  resource.ListPostgres := inr [db];
  resource.RestartService := restart;
  resource.RestartPostgresDatabase := restart;
  resource.ServerResourceIDPrefix := "srv-";
  resource.PostgresResourceIDPrefix := "dpg-";
  resource.CronjobResourceIDPrefix := "crn-"
|}.

End Samples.

(** ** Properties *)

Module IntFacts.

Lemma wrap_in_range (z : Z) : Int.in_range z -> Int.wrap z = z.
Proof.
  unfold Int.in_range, Int.min_int, Int.max_int, Int.wrap. intros Hz.
  rewrite Z.mod_small; lia.
Qed.

Lemma wrap_sub_sub (a b c : Z) :
  Int.sub (Int.sub a b) c = Int.wrap (a - b - c).
Proof.
  unfold Int.sub, Int.wrap.
  replace ((a - b + 2 ^ 63) mod 2 ^ 64 - 2 ^ 63 - c + 2 ^ 63)
    with ((a - b + 2 ^ 63) mod 2 ^ 64 - c) by lia.
  rewrite Zminus_mod_idemp_l. do 2 f_equal. lia.
Qed.

End IntFacts.

Module TeaFacts.

Lemma leaves_batch (cs : list tea.Cmd) :
  tea.leaves (tea.batch cs) = flat_map tea.leaves cs.
Proof.
  simpl. induction cs as [|c cs IH]; simpl; [reflexivity | now rewrite IH].
Qed.

Lemma leaves_sequence (cs : list tea.Cmd) :
  tea.leaves (tea.sequence cs) = flat_map tea.leaves cs.
Proof.
  simpl. induction cs as [|c cs IH]; simpl; [reflexivity | now rewrite IH].
Qed.

Lemma flat_map_leaves_valid (cs : list tea.Cmd) :
  flat_map tea.leaves (filter (fun c => tea.is_nil c = false) cs)
  = flat_map tea.leaves cs.
Proof.
  induction cs as [|c cs IH]; [reflexivity|].
  rewrite filter_cons. destruct c; simpl in *; rewrite ?IH; reflexivity.
Qed.

(** Whatever [compactCmds] does to the shape, the commands that get run are
    those of the arguments, in order. *)
Lemma leaves_Batch (cs : list tea.Cmd) :
  tea.leaves (tea.Batch cs) = flat_map tea.leaves cs.
Proof.
  rewrite <- flat_map_leaves_valid. unfold tea.Batch, tea.compactCmds.
  destruct (filter _ cs) as [|c [|c' r]] eqn:E.
  - reflexivity.
  - simpl. now rewrite app_nil_r.
  - apply leaves_batch.
Qed.

End TeaFacts.

Module StackFacts.
Section WithScreens.

Context {Screen : Type} {screens : tea.Model Screen}
        {errors : ErrorScreen Screen} {theme : Theme}.

Implicit Types (m : StackModel Screen) (e : ModelWithCmd Screen) (w : World).

Lemma length_zero_eqb (l : list (ModelWithCmd Screen)) :
  (length l =? 0)%nat = true <-> l = [].
Proof.
  rewrite Nat.eqb_eq. destruct l; simpl; split; intros; congruence.
Qed.

Lemma nonempty_eqb (l : list (ModelWithCmd Screen)) :
  l <> [] -> (length l =? 0)%nat = false /\ (0 <? length l)%nat = true.
Proof.
  destruct l; [congruence|]. intros _. split; reflexivity.
Qed.

Lemma top_snoc m (l : list (ModelWithCmd Screen)) e :
  stack m = l ++ [e] -> Stack.top m = Some e.
Proof.
  intros E. unfold Stack.top. rewrite E, length_app. simpl.
  rewrite Nat.add_1_r. rewrite lookup_app_r by lia.
  now rewrite Nat.sub_diag.
Qed.

Lemma snoc_of_nonempty (l : list (ModelWithCmd Screen)) :
  l <> [] -> exists l' e, l = l' ++ [e].
Proof.
  intros H. induction l as [|e l _] using rev_ind; [congruence|eauto].
Qed.

Lemma top_is_Some m : stack m <> [] -> is_Some (Stack.top m).
Proof.
  intros H. destruct (snoc_of_nonempty _ H) as (l & e & E).
  rewrite (top_snoc m l e E). eauto.
Qed.

Lemma top_lookup m e :
  Stack.top m = Some e -> stack m !! (length (stack m) - 1)%nat = Some e.
Proof.
  unfold Stack.top. destruct (length (stack m)) as [|n]; [discriminate|].
  now replace (S n - 1)%nat with n by lia.
Qed.

Lemma stack_Pop_snoc m (l : list (ModelWithCmd Screen)) e :
  stack m = l ++ [e] -> stack (Stack.Pop m) = l.
Proof.
  intros E. unfold Stack.Pop. rewrite E, length_app. simpl.
  replace (0 <? length l + 1)%nat with true by (symmetry; apply Nat.ltb_lt; lia).
  simpl. replace (length l + 1 - 1)%nat with (length l) by lia.
  now rewrite take_app_length.
Qed.

Lemma stack_Pop m :
  stack (Stack.Pop m) = take (length (stack m) - 1) (stack m).
Proof.
  unfold Stack.Pop. destruct (0 <? length (stack m))%nat eqn:L; simpl; [reflexivity|].
  apply Nat.ltb_ge in L. destruct (stack m); simpl in *; [reflexivity | lia].
Qed.

Lemma Pop_frame m :
  loadingSpinner (Stack.Pop m) = loadingSpinner m
  /\ width (Stack.Pop m) = width m /\ height (Stack.Pop m) = height m.
Proof.
  unfold Stack.Pop. destruct (0 <? _)%nat; simpl; auto.
Qed.

(** The commands that [Init] gives the runtime are the commands of the
    screens' own [Init], from the bottom of the stack to its top. *)
Lemma leaves_Init m :
  tea.leaves (Stack.Init m)
  = flat_map (fun e => tea.leaves (tea.Init (Model e))) (stack m).
Proof.
  unfold Stack.Init. rewrite TeaFacts.leaves_Batch. simpl. rewrite app_nil_r.
  assert (G : forall l c,
    tea.leaves (fold_left (fun cmd model => tea.Batch [cmd; tea.Init (Model model)]) l c)
    = tea.leaves c ++ flat_map (fun e => tea.leaves (tea.Init (Model e))) l).
  { induction l as [|e l IH]; intros c; simpl.
    - now rewrite app_nil_r.
    - rewrite IH, TeaFacts.leaves_Batch. simpl. now rewrite app_nil_r, <- app_assoc. }
  now rewrite G.
Qed.

Lemma footerCommands_is_Some m :
  stack m <> [] -> is_Some (Stack.footerCommands m).
Proof.
  intros H. unfold Stack.footerCommands.
  destruct (top_is_Some m H) as [t ->]. simpl. eauto.
Qed.

Lemma footer_is_Some m : stack m <> [] -> is_Some (Stack.footer m).
Proof.
  intros H. unfold Stack.footer.
  destruct (footerCommands_is_Some m H) as [c ->]. simpl. eauto.
Qed.

Lemma StackSizeMsg_is_Some m : stack m <> [] -> is_Some (Stack.StackSizeMsg m).
Proof.
  intros H. unfold Stack.StackSizeMsg.
  destruct (footer_is_Some m H) as [f ->]. simpl. eauto.
Qed.

Lemma forward_nonempty w m subMsg t :
  Stack.top m = Some t ->
  Stack.forward w m subMsg
  = Some (w,
          Stack.set_stack m
            (<[(length (stack m) - 1)%nat :=
                MkModelWithCmd (tea.Update (Model t) subMsg).1 (Cmd t) (Breadcrumb t)]>
               (stack m)),
          (tea.Update (Model t) subMsg).2).
Proof.
  intros Ht. unfold Stack.forward.
  assert (stack m <> []) as Hne.
  { intros E. unfold Stack.top in Ht. rewrite E in Ht. discriminate. }
  destruct (nonempty_eqb _ Hne) as [_ ->]. rewrite Ht. simpl.
  now destruct (tea.Update (Model t) subMsg).
Qed.

Lemma insert_last_snoc (l : list (ModelWithCmd Screen)) e e' :
  <[(length (l ++ [e]) - 1)%nat := e']> (l ++ [e]) = l ++ [e'].
Proof.
  rewrite length_app. simpl. replace (length l + 1 - 1)%nat with (length l + 0)%nat by lia.
  now rewrite insert_app_r.
Qed.

Lemma forward_is_Some w m subMsg : is_Some (Stack.forward w m subMsg).
Proof.
  destruct (stack m) as [|e l] eqn:E.
  - unfold Stack.forward. rewrite E. simpl. eauto.
  - assert (Hne : stack m <> []) by (rewrite E; discriminate).
    destruct (top_is_Some m Hne) as [t Ht].
    rewrite (forward_nonempty w m subMsg t Ht). eauto.
Qed.

(** Forwarding touches the screen of the top entry and nothing else. *)
Lemma forward_frame w m subMsg w' m' cmd :
  Stack.forward w m subMsg = Some (w', m', cmd) ->
  w' = w /\ loadingSpinner m' = loadingSpinner m
  /\ width m' = width m /\ height m' = height m
  /\ length (stack m') = length (stack m)
  /\ (forall i, (i <> length (stack m) - 1)%nat -> stack m' !! i = stack m !! i).
Proof.
  destruct (stack m) as [|e l] eqn:E.
  - unfold Stack.forward. rewrite E. simpl. intros [= <- <- <-]. rewrite E. auto 10.
  - assert (Hne : stack m <> []) by (rewrite E; discriminate).
    destruct (top_is_Some m Hne) as [t Ht].
    rewrite (forward_nonempty w m subMsg t Ht). intros [= <- <- <-]. simpl.
    rewrite length_insert, E. repeat split; try reflexivity.
    intros i Hi. rewrite <- E. apply list_lookup_insert_ne. rewrite E. simpl in *. lia.
Qed.

Lemma copyCommand_cases w m t :
  Stack.top m = Some t ->
  (clipboardWorks w = true
   /\ Stack.copyCommand w m
      = Some (MkWorld (Cmd t) true (lastSpinnerID w), m))
  \/ (clipboardWorks w = false
      /\ Stack.copyCommand w m
         = Some (w, Stack.set_stack m
                      (stack m ++ [MkModelWithCmd
                         (NewErrorModel "Failed to copy command to clipboard") "" ""]))).
Proof.
  intros Ht. unfold Stack.copyCommand.
  assert (stack m <> []) as Hne.
  { intros E. unfold Stack.top in Ht. rewrite E in Ht. discriminate. }
  destruct (nonempty_eqb _ Hne) as [_ ->]. rewrite Ht. simpl.
  unfold clipboard.WriteAll. destruct (clipboardWorks w) eqn:Hc; [left|right]; auto.
Qed.

Lemma copyCommand_frame w m w1 m1 :
  stack m <> [] ->
  Stack.copyCommand w m = Some (w1, m1) ->
  loadingSpinner m1 = loadingSpinner m
  /\ width m1 = width m /\ height m1 = height m
  /\ stack m1 <> []
  /\ (forall i e, stack m !! i = Some e -> stack m1 !! i = Some e).
Proof.
  intros Hne. destruct (top_is_Some m Hne) as [t Ht].
  destruct (copyCommand_cases w m t Ht) as [[_ ->]|[_ ->]]; intros [= <- <-]; simpl.
  - auto 10.
  - repeat split; try reflexivity.
    + destruct (stack m); discriminate.
    + intros i e Hi. now apply lookup_app_l_Some.
Qed.

(** On the messages of [tea.Msg], [Update] does not panic: the index
    [len(m.stack)-1] is only read where the stack is known to have an
    entry.  (The [ErrorMsg] with a nil error is not among them, see
    [StackView.deliver].) *)
Lemma Update_is_Some w m msg : is_Some (Stack.Update w m msg).
Proof.
  unfold Stack.Update.
  destruct (length (stack m) =? 0)%nat eqn:Hz; [eauto|].
  assert (Hne : stack m <> []).
  { intros E. rewrite E in Hz. discriminate. }
  destruct msg as [k|W H|next|task| |Err|ID tg|Message|sz|payload]; cbv zeta.
  - destruct (Type_ k); try apply forward_is_Some; try (eexists; reflexivity).
    + destruct (length (stack (Stack.Pop m)) =? 0)%nat; eexists; reflexivity.
    + destruct (top_is_Some m Hne) as [t Ht].
      destruct (copyCommand_cases w m t Ht) as [[_ ->]|[_ ->]]; simpl;
        apply forward_is_Some.
  - destruct (StackSizeMsg_is_Some (Stack.set_size m W H) Hne) as [s ->]. simpl.
    apply forward_is_Some.
  - eexists; reflexivity.
  - destruct (Stack.newSpinner w). eexists; reflexivity.
  - eexists; reflexivity.
  - eexists; reflexivity.
  - destruct (loadingSpinner m); [|apply forward_is_Some].
    destruct (spinner.Update _ _). eexists; reflexivity.
  - destruct (length (stack (Stack.Pop m)) =? 0)%nat; eexists; reflexivity.
  - apply forward_is_Some.
  - apply forward_is_Some.
Qed.

(** [Init] ends the session exactly when the [Init] of a screen on the
    stack does. *)
Lemma ends_session_Init m :
  tea.ends_session (Stack.Init m)
  <-> exists e, e ∈ stack m /\ tea.ends_session (tea.Init (Model e)).
Proof.
  unfold tea.ends_session. rewrite leaves_Init.
  rewrite list_elem_of_In, in_flat_map. split.
  - intros (e & He & Hq). exists e. split; now apply list_elem_of_In.
  - intros (e & He & Hq). exists e. split; now apply list_elem_of_In.
Qed.

End WithScreens.
End StackFacts.

Section Dispatch.

Context {Screen : Type} {screens : tea.Model Screen}
        {errors : ErrorScreen Screen} {theme : Theme}.

Implicit Types (m : StackModel Screen) (e : ModelWithCmd Screen) (w : World).

(** C1.  On a stack of depth N >= 1 a Done event pops exactly one entry:
    the new stack is the old one without its last entry, the world, the
    loading indicator and the recorded size are untouched.  When N = 1 the
    command is the sequence "print the final message, then quit".  When
    N > 1 the command is [Init] of the stack that is left: the commands
    run are the [Init] commands of the entries left, those of the new top
    among them, and the session continues: the command ends the session
    only if the [Init] of a screen that is left does, so with screens
    whose [Init] does not quit the session goes on. *)
Theorem Done_pops_one_entry w m (Message : string) (N : nat) :
  length (stack m) = N -> (1 <= N)%nat ->
  exists cmd,
    Stack.Update w m (tea.DoneMsg Message) = Some (w, Stack.Pop m, cmd)
    /\ stack (Stack.Pop m) = take (N - 1) (stack m)
    /\ length (stack (Stack.Pop m)) = (N - 1)%nat
    /\ loadingSpinner (Stack.Pop m) = loadingSpinner m
    /\ (N = 1%nat -> cmd = tea.sequence [tea.Println Message; tea.Quit]
                     /\ tea.leaves cmd = [tea.Println Message; tea.Quit]
                     /\ tea.ends_session cmd)
    /\ ((1 < N)%nat ->
        cmd = Stack.Init (Stack.Pop m)
        /\ tea.leaves cmd
           = flat_map (fun e => tea.leaves (tea.Init (Model e))) (stack (Stack.Pop m))
        /\ exists t,
             Stack.top (Stack.Pop m) = Some t
             /\ stack m !! (N - 2)%nat = Some t
             /\ (forall c, c ∈ tea.leaves (tea.Init (Model t)) -> c ∈ tea.leaves cmd)
             /\ (tea.ends_session cmd <->
                 exists e, e ∈ stack (Stack.Pop m)
                           /\ tea.ends_session (tea.Init (Model e)))
             /\ ((forall e, e ∈ stack (Stack.Pop m) ->
                            ~ tea.ends_session (tea.Init (Model e))) ->
                 ~ tea.ends_session cmd)).
Proof.
  intros HN Hpos.
  assert (Hne : stack m <> []) by (intros E; rewrite E in HN; simpl in HN; lia).
  destruct (StackFacts.nonempty_eqb _ Hne) as [Hz _].
  assert (Hlen : length (stack (Stack.Pop m)) = (N - 1)%nat).
  { rewrite StackFacts.stack_Pop, length_take. lia. }
  unfold Stack.Update. rewrite Hz.
  destruct (length (stack (Stack.Pop m)) =? 0)%nat eqn:Hz'.
  - apply Nat.eqb_eq in Hz'.
    eexists. split; [reflexivity|].
    split; [rewrite StackFacts.stack_Pop; now rewrite HN|].
    split; [exact Hlen|]. split; [apply StackFacts.Pop_frame|].
    split; [intros _; repeat split | lia].
    unfold tea.ends_session. simpl. apply list_elem_of_further, list_elem_of_here.
  - apply Nat.eqb_neq in Hz'.
    eexists. split; [reflexivity|].
    split; [rewrite StackFacts.stack_Pop; now rewrite HN|].
    split; [exact Hlen|]. split; [apply StackFacts.Pop_frame|].
    split; [lia|]. intros _. split; [reflexivity|].
    split; [apply StackFacts.leaves_Init|].
    assert (Hne' : stack (Stack.Pop m) <> []).
    { intros E. rewrite E in Hz'. simpl in Hz'. lia. }
    destruct (StackFacts.top_is_Some _ Hne') as [t Ht]. exists t.
    split; [exact Ht|]. split.
    + apply StackFacts.top_lookup in Ht. rewrite Hlen in Ht.
      rewrite StackFacts.stack_Pop, HN in Ht.
      rewrite lookup_take_lt in Ht by lia.
      now replace (N - 2)%nat with (N - 1 - 1)%nat by lia.
    + split; [|split].
      * intros c Hc. rewrite StackFacts.leaves_Init.
        apply StackFacts.top_lookup in Ht.
        apply list_elem_of_In, in_flat_map. exists t. split.
        -- apply list_elem_of_In, list_elem_of_lookup. eauto.
        -- now apply list_elem_of_In.
      * apply StackFacts.ends_session_Init.
      * intros Hscreens Hend.
        apply StackFacts.ends_session_Init in Hend as (e & He & Hq).
        exact (Hscreens e He Hq).
Qed.

(** C2, as amended.  Popping an empty stack leaves the stack as it is, and
    [Pop] has no result but the stack, so no event comes of it.
    Dispatching any event on an empty stack changes neither the stack nor
    the world and never panics, and the command it answers with is
    [tea.Quit]: the session ends. *)
Theorem empty_stack_pop_and_dispatch w m (msg : tea.Msg) :
  stack m = [] ->
  Stack.Pop m = m
  /\ stack (Stack.Pop m) = []
  /\ Stack.Update w m msg = Some (w, m, tea.Quit)
  /\ tea.ends_session tea.Quit.
Proof.
  intros E. unfold Stack.Pop, Stack.Update. rewrite E. simpl.
  repeat split; try assumption. unfold tea.ends_session. simpl. apply list_elem_of_here.
Qed.

(** C4.  On a non-empty stack an Error event puts one new entry on top,
    the error screen built from the error's message, with no replay
    command and no breadcrumb: the depth grows by exactly one, every entry
    that was there is still at its index, nothing else of the state
    changes, and the command is nil, so the session goes on. *)
Theorem Error_pushes_one_screen w m (Err : string) :
  stack m <> [] ->
  exists m',
    Stack.Update w m (tea.ErrorMsg Err) = Some (w, m', tea.nil)
    /\ stack m' = stack m ++ [MkModelWithCmd (NewErrorModel Err) "" ""]
    /\ length (stack m') = S (length (stack m))
    /\ (forall i e, stack m !! i = Some e -> stack m' !! i = Some e)
    /\ Stack.top m' = Some (MkModelWithCmd (NewErrorModel Err) "" "")
    /\ loadingSpinner m' = loadingSpinner m
    /\ width m' = width m /\ height m' = height m
    /\ ~ tea.ends_session tea.nil.
Proof.
  intros Hne. destruct (StackFacts.nonempty_eqb _ Hne) as [Hz _].
  unfold Stack.Update. rewrite Hz. simpl.
  eexists. split; [reflexivity|]. simpl.
  split; [reflexivity|]. split; [rewrite length_app; simpl; lia|].
  split; [intros i e Hi; now apply lookup_app_l_Some|].
  split; [now apply (StackFacts.top_snoc _ (stack m))|].
  repeat split. unfold tea.ends_session. simpl. apply not_elem_of_nil.
Qed.

End Dispatch.

Lemma Done_pops_one_entry_witness :
  let m := Demo.stack_of [Demo.services; Demo.deploy] in
  length (stack m) = 2%nat /\ (1 <= 2)%nat
  /\ @Stack.Update _ _ _ Demo.plain Demo.world m (tea.DoneMsg "bye")
     = Some (Demo.world, Demo.stack_of [Demo.services], tea.Task "services")
  /\ ~ tea.ends_session (tea.Task "services").
Proof.
  intros m. split; [reflexivity|]. split; [lia|].
  destruct (@Done_pops_one_entry _ _ _ Demo.plain Demo.world m "bye" 2 eq_refl
              ltac:(lia)) as (cmd & HU & _ & _ & _ & _ & Hmore).
  destruct (Hmore ltac:(lia)) as (Hcmd & _ & t & _ & _ & _ & _ & Hgoes_on).
  rewrite HU, Hcmd. split; [reflexivity|].
  change (tea.Task "services") with (@Stack.Init _ Demo.screen_model (Stack.Pop m)).
  rewrite <- Hcmd. apply Hgoes_on.
  intros e He Hq. apply list_elem_of_singleton in He. subst e.
  unfold tea.ends_session in Hq. simpl in Hq.
  apply list_elem_of_singleton in Hq. discriminate.
Defined.

Lemma empty_stack_pop_and_dispatch_witness :
  stack (@Stack.NewStack Demo.Screen) = []
  /\ @Stack.Update _ _ _ Demo.plain Demo.world Stack.NewStack (tea.OtherMsg "refresh")
     = Some (Demo.world, Stack.NewStack, tea.Quit).
Proof.
  split; [reflexivity|].
  apply (@empty_stack_pop_and_dispatch _ _ _ Demo.plain Demo.world Stack.NewStack
           (tea.OtherMsg "refresh") eq_refl).
Defined.

(** C2, as it is worded, fails at the empty stack: whatever the event, the
    answer of [Update] ends the session. *)
Lemma dispatch_on_empty_stack_quits :
  ~ (exists cmd,
       @Stack.Update Demo.Screen _ _ Demo.plain Demo.world Stack.NewStack
         (tea.OtherMsg "refresh") = Some (Demo.world, Stack.NewStack, cmd)
       /\ ~ tea.ends_session cmd).
Proof.
  intros (cmd & HU & Hgo). apply Hgo. vm_compute in HU.
  injection HU as <-. unfold tea.ends_session. simpl. apply list_elem_of_here.
Qed.

Lemma Error_pushes_one_screen_witness :
  let m := Demo.stack_of [Demo.services] in
  stack m <> []
  /\ @Stack.Update _ _ _ Demo.plain Demo.world m (tea.ErrorMsg "boom")
     = Some (Demo.world,
             Demo.stack_of [Demo.services; MkModelWithCmd (Demo.ErrorModel "boom") "" ""],
             tea.nil).
Proof.
  intros m. split; [discriminate|].
  destruct (@Error_pushes_one_screen _ _ _ Demo.plain Demo.world m "boom"
              ltac:(discriminate)) as (m' & HU & Hs & _).
  rewrite HU. destruct m' as [sp st wd ht]. simpl in Hs. subst st.
  vm_compute in HU. injection HU as <- <- <-. reflexivity.
Defined.

Section Indicator.

Context {Screen : Type} {screens : tea.Model Screen}
        {errors : ErrorScreen Screen} {theme : Theme}.

Implicit Types (m : StackModel Screen) (e : ModelWithCmd Screen) (w : World).

(** One dispatch of anything but a Loading-end event keeps an active
    indicator active. *)
Lemma Update_keeps_indicator w m msg w' m' cmd :
  msg <> tea.DoneLoadingDataMsg ->
  Stack.Update w m msg = Some (w', m', cmd) ->
  is_Some (loadingSpinner m) -> is_Some (loadingSpinner m').
Proof.
  intros Hmsg HU Hact. unfold Stack.Update in HU.
  destruct (length (stack m) =? 0)%nat eqn:Hz; [now injection HU as <- <- <-|].
  assert (Hne : stack m <> []).
  { intros E. rewrite E in Hz. discriminate. }
  assert (Hfw : forall w0 m0 sub,
             Stack.forward w0 m0 sub = Some (w', m', cmd) ->
             loadingSpinner m0 = loadingSpinner m -> is_Some (loadingSpinner m')).
  { intros w0 m0 sub Hf E. apply StackFacts.forward_frame in Hf as (_ & -> & _).
    now rewrite E. }
  destruct msg as [k|W H|next|task| |Err|ID tg|Message|sz|payload]; cbv zeta in HU;
    try (eapply Hfw; [exact HU | reflexivity]).
  - destruct (Type_ k); try (eapply Hfw; [exact HU | reflexivity]).
    + now injection HU as <- <- <-.
    + destruct (length (stack (Stack.Pop m)) =? 0)%nat; injection HU as <- <- <-;
        now rewrite (proj1 (StackFacts.Pop_frame m)).
    + destruct (Stack.copyCommand w m) as [[w1 m1]|] eqn:Hc; [|discriminate].
      simpl in HU. eapply Hfw; [exact HU|].
      now apply (StackFacts.copyCommand_frame w m w1 m1 Hne Hc).
  - destruct (Stack.StackSizeMsg (Stack.set_size m W H)) as [s|]; [|discriminate].
    simpl in HU. eapply Hfw; [exact HU | reflexivity].
  - now injection HU as <- <- <-.
  - destruct (Stack.newSpinner w). injection HU as <- <- <-. simpl. eauto.
  - congruence.
  - now injection HU as <- <- <-.
  - destruct (loadingSpinner m) as [s|] eqn:Hs.
    + destruct (spinner.Update s _). injection HU as <- <- <-. simpl. eauto.
    + now destruct Hact.
  - destruct (length (stack (Stack.Pop m)) =? 0)%nat; injection HU as <- <- <-;
      now rewrite (proj1 (StackFacts.Pop_frame m)).
Qed.

Lemma dispatch_all_keeps_indicator (msgs : list tea.Msg) : forall w m,
  Forall (fun msg => msg <> tea.DoneLoadingDataMsg) msgs ->
  is_Some (loadingSpinner m) ->
  exists w' m',
    Stack.dispatch_all w m msgs = Some (w', m') /\ is_Some (loadingSpinner m').
Proof.
  induction msgs as [|msg msgs IH]; intros w m Hall Hact.
  - exists w, m. split; [reflexivity | assumption].
  - apply Forall_cons in Hall as [Hmsg Hall].
    destruct (StackFacts.Update_is_Some w m msg) as [[[w1 m1] cmd] HU].
    simpl. rewrite HU. simpl. apply IH; [assumption|].
    eapply Update_keeps_indicator; eauto.
Qed.

(** C3.  Once the indicator is active, every run of events without a
    Loading-end event (Done events, keys, errors, ticks, a new
    Loading-start, a clear, a resize, ...) is carried out to its end and
    leaves the indicator active at every instant of the run, and at every
    instant exactly one indicator is held, never two; a Loading-end event
    on a stack that has an entry clears it. *)
Theorem indicator_cleared_only_by_Loading_end w m (msgs : list tea.Msg) :
  Forall (fun msg => msg <> tea.DoneLoadingDataMsg) msgs ->
  is_Some (loadingSpinner m) ->
  (forall k : nat,
     exists w' m',
       Stack.dispatch_all w m (take k msgs) = Some (w', m')
       /\ is_Some (loadingSpinner m')
       /\ length (Stack.indicators m') = 1%nat)
  /\ (forall m0 : StackModel Screen, (length (Stack.indicators m0) <= 1)%nat)
  /\ (stack m <> [] ->
      Stack.Update w m tea.DoneLoadingDataMsg
      = Some (w, Stack.set_loadingSpinner m None, tea.nil)).
Proof.
  intros Hall Hact. split; [|split].
  - intros k.
    destruct (dispatch_all_keeps_indicator (take k msgs) w m) as (w' & m' & HD & Hs);
      [now apply Forall_take | assumption |].
    exists w', m'. split; [assumption|]. split; [assumption|].
    unfold Stack.indicators. now destruct Hs as [s ->].
  - intros m0. unfold Stack.indicators. destruct (loadingSpinner m0); simpl; lia.
  - intros Hne. unfold Stack.Update.
    now destruct (StackFacts.nonempty_eqb _ Hne) as [-> _].
Qed.

(** C10, as amended.  On a stack that has an entry, a Loading-start event
    installs the spinner that [newSpinner] makes, whatever indicator was
    there: its frame is 0 and its identifier is the next one of the
    counter; the command starts its ticks and runs the carried task; a
    tick that bears another identifier, such as one of the indicator that
    was replaced, is dropped.  On any stack, neither a Loading-start nor a
    Loading-end event changes the entries. *)
Theorem Loading_start_installs_fresh_indicator w m (task : tea.Cmd) :
  (forall msg w' m' cmd,
     msg = tea.LoadingDataMsg task \/ msg = tea.DoneLoadingDataMsg ->
     Stack.Update w m msg = Some (w', m', cmd) -> stack m' = stack m)
  /\ (stack m <> [] ->
      let spin := spinner.MkModel 0 (Int.add (lastSpinnerID w) 1) 0 in
      let w' := MkWorld (clipboardText w) (clipboardWorks w) (spinner.id spin) in
      let m' := Stack.set_loadingSpinner m (Some spin) in
      Stack.Update w m (tea.LoadingDataMsg task)
      = Some (w', m', tea.Batch [spinner.Tick spin; task])
      /\ loadingSpinner m' = Some spin
      /\ spinner.frame spin = 0
      /\ stack m' = stack m
      /\ (forall ID tg, 0 < ID -> ID <> spinner.id spin ->
            Stack.Update w' m' (tea.TickMsg ID tg) = Some (w', m', tea.nil))).
Proof.
  split.
  - intros msg w' m' cmd Hmsg HU. unfold Stack.Update in HU.
    destruct (length (stack m) =? 0)%nat; [now injection HU as <- <- <-|].
    destruct Hmsg as [-> | ->]; simpl in HU; now injection HU as <- <- <-.
  - intros Hne spin w' m'. destruct (StackFacts.nonempty_eqb _ Hne) as [Hz _].
    split; [unfold Stack.Update; now rewrite Hz|].
    repeat split.
    intros ID tg Hpos Hid. unfold Stack.Update.
    change (stack m') with (stack m). rewrite Hz. simpl.
    replace (0 <? ID) with true by (symmetry; apply Z.ltb_lt; assumption).
    replace (ID =? Int.add (lastSpinnerID w) 1) with false
      by (symmetry; apply Z.eqb_neq; assumption).
    reflexivity.
Qed.

End Indicator.

Lemma indicator_cleared_only_by_Loading_end_witness :
  let m := Demo.with_indicator [Demo.services; Demo.deploy] in
  let msgs := [tea.DoneMsg "bye"; Demo.CtrlS; tea.ErrorMsg "boom"] in
  Forall (fun msg => msg <> tea.DoneLoadingDataMsg) msgs
  /\ is_Some (loadingSpinner m)
  /\ exists w' m',
       @Stack.dispatch_all _ _ _ Demo.plain Demo.world m (take 3 msgs) = Some (w', m')
       /\ is_Some (loadingSpinner m').
Proof.
  intros m msgs.
  assert (H1 : Forall (fun msg => msg <> tea.DoneLoadingDataMsg) msgs)
    by (repeat constructor; discriminate).
  assert (H2 : is_Some (loadingSpinner m)) by (eexists; reflexivity).
  split; [exact H1|]. split; [exact H2|].
  destruct (@indicator_cleared_only_by_Loading_end _ _ _ Demo.plain Demo.world m msgs
              H1 H2) as (Hrun & _).
  destruct (Hrun 3%nat) as (w' & m' & HD & Hs & _). eauto.
Defined.

(** C10, as it is worded, fails at the empty stack: the Loading-start
    event is answered with [tea.Quit] and no indicator is installed. *)
Lemma Loading_start_on_empty_stack_installs_nothing :
  ~ (exists w' m' cmd,
       @Stack.Update Demo.Screen _ _ Demo.plain Demo.world Stack.NewStack
         (tea.LoadingDataMsg (tea.Task "load")) = Some (w', m', cmd)
       /\ is_Some (loadingSpinner m')).
Proof.
  intros (w' & m' & cmd & HU & Hs). vm_compute in HU.
  injection HU as <- <- <-. destruct Hs as [s Hs]. discriminate.
Qed.

Lemma Loading_start_installs_fresh_indicator_witness :
  let m := Demo.with_indicator [Demo.services] in
  stack m <> []
  /\ @Stack.Update _ _ _ Demo.plain Demo.world m (tea.LoadingDataMsg (tea.Task "load"))
     = Some (MkWorld "kept" true 1,
             MkStackModel (Some (spinner.MkModel 0 1 0)) [Demo.services] 80 24,
             tea.batch [tea.Return (tea.TickMsg 1 0); tea.Task "load"]).
Proof.
  intros m. split; [discriminate|].
  destruct (@Loading_start_installs_fresh_indicator _ _ _ Demo.plain Demo.world m
              (tea.Task "load")) as (_ & Hfresh).
  destruct (Hfresh ltac:(discriminate)) as (HU & _).
  rewrite HU. reflexivity.
Defined.

Section Keys.

Context {Screen : Type} {screens : tea.Model Screen}
        {errors : ErrorScreen Screen} {theme : Theme}.

Implicit Types (m : StackModel Screen) (e : ModelWithCmd Screen) (w : World).

(** C5, as amended.  For a key sent to a stack whose top entry is [t]:
    the quit key is answered with [tea.Quit] and the interrupt key with a
    pop (then [tea.Quit] or [Init]), and in both cases no screen is handed
    the key: the entries that remain are the old ones; the copy key is
    first handled by the stack (the clipboard write, and an error screen
    on top if it fails) and is then forwarded, unchanged, to the entry
    that is on top after that; every other key is forwarded, unchanged, to
    the top entry, whose answer is passed on as it is. *)
Theorem key_dispatch w m (k : Key) (t : ModelWithCmd Screen) :
  Stack.top m = Some t ->
  match Type_ k with
  | KeyCtrlC => Stack.Update w m (tea.KeyMsg k) = Some (w, m, tea.Quit)
  | KeyCtrlD =>
      stack (Stack.Pop m) = take (length (stack m) - 1) (stack m)
      /\ Stack.Update w m (tea.KeyMsg k)
         = Some (w, Stack.Pop m,
                 if (length (stack m) =? 1)%nat then tea.Quit
                 else Stack.Init (Stack.Pop m))
  | KeyCtrlS =>
      exists w1 m1 t1,
        Stack.copyCommand w m = Some (w1, m1)
        /\ Stack.top m1 = Some t1
        /\ (forall i e, stack m !! i = Some e -> stack m1 !! i = Some e)
        /\ Stack.Update w m (tea.KeyMsg k) = Stack.forwarded_to w1 m1 t1 (tea.KeyMsg k)
  | _ => Stack.Update w m (tea.KeyMsg k) = Stack.forwarded_to w m t (tea.KeyMsg k)
  end.
Proof.
  intros Ht.
  assert (Hne : stack m <> []).
  { intros E. unfold Stack.top in Ht. rewrite E in Ht. discriminate. }
  destruct (StackFacts.nonempty_eqb _ Hne) as [Hz _].
  unfold Stack.Update. rewrite Hz.
  destruct (Type_ k) eqn:Hk;
    try (unfold Stack.forwarded_to; now apply StackFacts.forward_nonempty).
  - reflexivity.
  - split; [apply StackFacts.stack_Pop|]. cbv zeta.
    rewrite StackFacts.stack_Pop, length_take.
    replace (length (stack m) - 1 `min` length (stack m))%nat
      with (length (stack m) - 1)%nat by lia.
    destruct (stack m) as [|e [|e' l]]; [congruence | reflexivity | reflexivity].
  - destruct (Stack.copyCommand w m) as [[w1 m1]|] eqn:Hc.
    + destruct (StackFacts.copyCommand_frame w m w1 m1 Hne Hc)
        as (_ & _ & _ & Hne1 & Hkeep).
      destruct (StackFacts.top_is_Some m1 Hne1) as [t1 Ht1].
      exists w1, m1, t1. repeat split; try assumption.
      simpl. unfold Stack.forwarded_to. now apply StackFacts.forward_nonempty.
    + destruct (StackFacts.copyCommand_cases w m t Ht) as [[_ E]|[_ E]]; congruence.
Qed.

(** The parts of C6 that the code keeps.  The copy key on a stack whose
    top entry is [t] hands the replay command of [t], and of no other
    entry, to the clipboard.  When the write succeeds the clipboard holds
    that command and the stack keeps its entries, the key going on to [t].
    When the write fails the world is as it was, the error screen for the
    failure is the new top entry, every entry that was there is still at
    its index, and the command that comes back is the answer of that error
    screen to the key; with the error screen of the specification, which
    is read-only and answers every message with itself and no command,
    the command is nil and the session is not ended. *)
Theorem copy_key_dispatch w m (k : Key) (t : ModelWithCmd Screen) :
  Stack.top m = Some t ->
  Type_ k = KeyCtrlS ->
  let failure := NewErrorModel "Failed to copy command to clipboard" in
  (clipboardWorks w = true ->
   Stack.Update w m (tea.KeyMsg k)
   = Stack.forwarded_to (MkWorld (Cmd t) true (lastSpinnerID w)) m t (tea.KeyMsg k))
  /\ (clipboardWorks w = false ->
      exists m',
        Stack.Update w m (tea.KeyMsg k)
        = Some (w, m', (tea.Update failure (tea.KeyMsg k)).2)
        /\ stack m'
           = stack m
             ++ [MkModelWithCmd (tea.Update failure (tea.KeyMsg k)).1 "" ""]
        /\ (forall i e, stack m !! i = Some e -> stack m' !! i = Some e)
        /\ ((forall msg, tea.Update failure msg = (failure, tea.nil)) ->
            Stack.Update w m (tea.KeyMsg k)
            = Some (w,
                    Stack.set_stack m (stack m ++ [MkModelWithCmd failure "" ""]),
                    tea.nil)
            /\ ~ tea.ends_session tea.nil)).
Proof.
  intros Ht Hk failure.
  assert (Hne : stack m <> []).
  { intros E. unfold Stack.top in Ht. rewrite E in Ht. discriminate. }
  destruct (StackFacts.nonempty_eqb _ Hne) as [Hz _].
  unfold Stack.Update. rewrite Hz, Hk.
  destruct (StackFacts.copyCommand_cases w m t Ht) as [[Hw ->]|[Hw ->]];
    (split; intros Hw'; [|]); try congruence; simpl.
  - unfold Stack.forwarded_to. now apply StackFacts.forward_nonempty.
  - set (pushed := Stack.set_stack m (stack m ++ [MkModelWithCmd failure "" ""])).
    rewrite (StackFacts.forward_nonempty w pushed _ (MkModelWithCmd failure "" ""))
      by (now apply (StackFacts.top_snoc pushed (stack m))).
    eexists. split; [reflexivity|]. simpl.
    split; [apply StackFacts.insert_last_snoc|].
    split.
    + intros i e Hi. rewrite StackFacts.insert_last_snoc. now apply lookup_app_l_Some.
    + intros Hro. rewrite StackFacts.insert_last_snoc, Hro. simpl.
      split; [reflexivity|]. unfold tea.ends_session. simpl. apply not_elem_of_nil.
Qed.

End Keys.

Lemma key_dispatch_witness :
  let m := Demo.stack_of [Demo.services; Demo.deploy] in
  Stack.top m = Some Demo.deploy
  /\ @Stack.Update _ _ _ Demo.plain Demo.world m
       (tea.KeyMsg (MkKey KeyRunes "j" false))
     = Some (Demo.world,
             Demo.stack_of
               [Demo.services;
                MkModelWithCmd
                  (Demo.Recorder "deploy" [tea.KeyMsg (MkKey KeyRunes "j" false)])
                  "render deploy svc-1" "Deploy"],
             tea.Task "deploy").
Proof.
  intros m. split; [reflexivity|].
  exact (@key_dispatch _ _ _ Demo.plain Demo.world m (MkKey KeyRunes "j" false)
           Demo.deploy eq_refl).
Defined.

Lemma copy_key_dispatch_witness :
  let m := Demo.stack_of [Demo.services; Demo.deploy] in
  Stack.top m = Some Demo.deploy
  /\ Type_ (MkKey KeyCtrlS "" false) = KeyCtrlS
  /\ clipboardWorks Demo.world_without_clipboard = false
  /\ @Stack.Update _ _ _ Demo.plain Demo.world_without_clipboard m Demo.CtrlS
     = Some (Demo.world_without_clipboard,
             Demo.stack_of
               [Demo.services; Demo.deploy;
                MkModelWithCmd
                  (Demo.ErrorModel "Failed to copy command to clipboard") "" ""],
             tea.nil)
  /\ ~ tea.ends_session tea.nil.
Proof.
  intros m. do 3 (split; [reflexivity|]).
  destruct (@copy_key_dispatch _ _ _ Demo.plain Demo.world_without_clipboard m
              (MkKey KeyCtrlS "" false) Demo.deploy eq_refl eq_refl) as (_ & Hfail).
  destruct (Hfail eq_refl) as (m' & _ & _ & _ & Hro).
  exact (Hro (fun msg => eq_refl)).
Defined.

(** C5, as it is worded, fails for the copy key: the active screen is
    handed the key after the clipboard write. *)
Lemma copy_key_reaches_the_active_screen :
  ~ (exists w' m' cmd,
       @Stack.Update Demo.Screen _ _ Demo.plain Demo.world
         (Demo.stack_of [Demo.deploy]) Demo.CtrlS = Some (w', m', cmd)
       /\ Demo.seen_by_top m' = []).
Proof.
  intros (w' & m' & cmd & HU & Hseen). vm_compute in HU.
  injection HU as <- <- <-. discriminate.
Qed.

(** C6.  The code departs from the claim where the top entry has no
    replay command: the claim has the copy key copy only a command that
    is not empty, and [footer] shows the copy binding only then, but the
    key writes the empty command to the clipboard all the same, and the
    text that was there is lost.  (The key then goes on to the screen.) *)
Lemma copy_key_writes_an_empty_command :
  Cmd Demo.services = ""
  /\ clipboardText Demo.world = "kept"
  /\ @Stack.footerCommands _ Demo.plain (Demo.stack_of [Demo.services])
     = Some [@Stack.quitCommand Demo.plain]
  /\ @Stack.Update _ _ _ Demo.plain Demo.world
       (Demo.stack_of [Demo.services]) Demo.CtrlS
     = Some (MkWorld "" true 0,
             Demo.stack_of
               [MkModelWithCmd (Demo.Recorder "services" [Demo.CtrlS]) "" "Services"],
             tea.Task "services")
  /\ ~ (exists w' m' cmd,
          @Stack.Update _ _ _ Demo.plain Demo.world
            (Demo.stack_of [Demo.services]) Demo.CtrlS = Some (w', m', cmd)
          /\ clipboardText w' = clipboardText Demo.world).
Proof.
  repeat (split; [reflexivity|]).
  intros (w' & m' & cmd & HU & Hclip). vm_compute in HU.
  injection HU as <- <- <-. discriminate.
Qed.

Module StringFacts.

Lemma chars_append (a b : string) :
  String.list_ascii_of_string (a +:+ b)
  = String.list_ascii_of_string a ++ String.list_ascii_of_string b.
Proof.
  induction a as [|c a IH]; [reflexivity|].
  change (String c a +:+ b) with (String c (a +:+ b)).
  cbn [String.list_ascii_of_string]. now rewrite IH.
Qed.

(** Two texts that end differently differ, whatever stands before. *)
Lemma append_neq (a b s s' : string) :
  (forall x y, rev (String.list_ascii_of_string s) ++ x
               <> rev (String.list_ascii_of_string s') ++ y) ->
  a +:+ s <> b +:+ s'.
Proof.
  intros Hs E. apply (f_equal String.list_ascii_of_string) in E.
  rewrite !chars_append in E. apply (f_equal (@rev _)) in E.
  rewrite !rev_app_distr in E. exact (Hs _ _ E).
Qed.

Lemma eqb_empty (b : string) : negb (String.eqb b "") = true <-> b <> "".
Proof.
  rewrite negb_true_iff. destruct (String.eqb_spec b ""); split; congruence.
Qed.

End StringFacts.

Section Frame.

Context {Screen : Type} {screens : tea.Model Screen}
        {errors : ErrorScreen Screen} {theme : Theme}.

Implicit Types (m : StackModel Screen) (e : ModelWithCmd Screen) (w : World).

Lemma quit_is_not_prev : Stack.quitCommand <> Stack.prevCommand.
Proof. apply StringFacts.append_neq. intros x y. simpl. discriminate. Qed.

Lemma quit_is_not_save : Stack.quitCommand <> Stack.saveToClipboard.
Proof. apply StringFacts.append_neq. intros x y. simpl. discriminate. Qed.

Lemma prev_is_not_save : Stack.prevCommand <> Stack.saveToClipboard.
Proof. apply StringFacts.append_neq. intros x y. simpl. discriminate. Qed.

(** The loop of [header] collects the styled breadcrumbs that are not
    empty, in order, behind what it has already. *)
Lemma header_loop (l : list (ModelWithCmd Screen)) : forall acc : list string,
  fold_left (fun breadCrumbs model =>
               if negb (String.eqb (Breadcrumb model) "")
               then breadCrumbs ++ [stackInfoStyle (Breadcrumb model)]
               else breadCrumbs) l acc
  = acc ++ (stackInfoStyle <$>
              filter (fun b : string => b <> EmptyString) (Breadcrumb <$> l)).
Proof.
  induction l as [|e l IH]; intros acc; simpl.
  - now rewrite app_nil_r.
  - rewrite IH, filter_cons.
    destruct (String.eqb_spec (Breadcrumb e) "") as [E|E]; simpl.
    + rewrite decide_False by (intros H; now apply H). reflexivity.
    + rewrite decide_True by assumption. simpl. now rewrite <- app_assoc.
Qed.

Lemma crumbs_of_filtered (l : list (ModelWithCmd Screen)) :
  filter (fun b : string => b <> EmptyString)
         (Breadcrumb <$> filter (fun e => Breadcrumb e <> EmptyString) l)
  = filter (fun b : string => b <> EmptyString) (Breadcrumb <$> l).
Proof.
  induction l as [|e l IH]; [reflexivity|].
  rewrite (filter_cons _ e l), fmap_cons, (filter_cons _ (Breadcrumb e)).
  destruct (decide (Breadcrumb e <> "")) as [E|E].
  - rewrite fmap_cons, filter_cons, decide_True by assumption. now rewrite IH.
  - exact IH.
Qed.

(** C8.  The header is the header style applied to the join, by " > ", of
    the styled breadcrumbs that are not empty, in the order of the stack
    from bottom to top; the entries whose breadcrumb is empty count for
    nothing: with them taken out of the stack the header is the same, so
    they bring no fragment and no separator. *)
Theorem header_is_join_of_breadcrumbs m :
  Stack.header m = Stack.header_by_spec m
  /\ Stack.header m
     = Stack.header
         (Stack.set_stack m (filter (fun e => Breadcrumb e <> EmptyString) (stack m)))
  /\ (Forall (fun e => Breadcrumb e = EmptyString) (stack m) ->
      Stack.header m = stackHeaderStyle "").
Proof.
  assert (Hspec : forall m0 : StackModel Screen,
             Stack.header m0 = Stack.header_by_spec m0).
  { intros m0. unfold Stack.header, Stack.header_by_spec. now rewrite header_loop. }
  split; [apply Hspec|]. split.
  - rewrite !Hspec. unfold Stack.header_by_spec. simpl.
    now rewrite crumbs_of_filtered.
  - intros Hall. rewrite Hspec. unfold Stack.header_by_spec.
    replace (filter (fun b : string => b <> EmptyString) (Breadcrumb <$> stack m))
      with (@List.nil string); [reflexivity|].
    induction Hall as [|e l He _ IH]; [reflexivity|].
    simpl. rewrite filter_cons, decide_False by (intros H; now apply H). exact IH.
Qed.

(** C9.  For a stack whose top entry is [t], the footer is the title
    followed by the bindings joined by a blank, and among the bindings the
    quit binding is always there, the previous-command binding is there
    exactly when the stack has more than one entry, and the copy binding
    is there exactly when the replay command of [t] is not empty. *)
Theorem footer_bindings m (t : ModelWithCmd Screen) :
  Stack.top m = Some t ->
  exists commands : list string,
    Stack.footerCommands m = Some commands
    /\ Stack.footer m = Some (CommandTitle "Navigation: " +:+ Join commands " ")
    /\ Stack.quitCommand ∈ commands
    /\ (Stack.prevCommand ∈ commands <-> (1 < length (stack m))%nat)
    /\ (Stack.saveToClipboard ∈ commands <-> Cmd t <> EmptyString).
Proof.
  intros Ht. unfold Stack.footer, Stack.footerCommands. rewrite Ht. simpl.
  eexists. split; [reflexivity|]. split; [reflexivity|].
  pose proof quit_is_not_prev as Hqp. pose proof quit_is_not_save as Hqs.
  pose proof prev_is_not_save as Hps.
  destruct (1 <? length (stack m))%nat eqn:Hd;
    [apply Nat.ltb_lt in Hd | apply Nat.ltb_ge in Hd];
    destruct (String.eqb_spec (Cmd t) "") as [Hc|Hc]; simpl;
    rewrite ?elem_of_cons, ?elem_of_nil; intuition (try congruence; try lia).
Qed.

(** C7.  A resize on a stack whose top entry is [t] records the new width
    and height, and what the top screen is handed is not the resize but
    the session-size event: the new width, the new height less the header
    height less the footer height (as far as that is an [int]), and the
    header height as the top; the screen's answer is passed on. *)
Theorem resize_forwards_session_size w m (W H : Z)
    (t : ModelWithCmd Screen) (f : string) :
  Stack.top m = Some t ->
  Stack.footer m = Some f ->
  Int.in_range (H - lipgloss.Height (Stack.header m) - lipgloss.Height f) ->
  let sub :=
    tea.SizeMsg
      (MkStackSizeMsg W
         (H - lipgloss.Height (Stack.header m) - lipgloss.Height f)
         (lipgloss.Height (Stack.header m))) in
  exists m',
    Stack.Update w m (tea.WindowSizeMsg W H)
    = Some (w, m', (tea.Update (Model t) sub).2)
    /\ width m' = W /\ height m' = H
    /\ stack m'
       = <[(length (stack m) - 1)%nat :=
            MkModelWithCmd (tea.Update (Model t) sub).1 (Cmd t) (Breadcrumb t)]>
           (stack m)
    /\ loadingSpinner m' = loadingSpinner m
    /\ sub <> tea.WindowSizeMsg W H.
Proof.
  intros Ht Hf Hrange sub.
  assert (Hne : stack m <> []).
  { intros E. unfold Stack.top in Ht. rewrite E in Ht. discriminate. }
  destruct (StackFacts.nonempty_eqb _ Hne) as [Hz _].
  unfold Stack.Update. rewrite Hz. cbv zeta.
  unfold Stack.StackSizeMsg.
  change (Stack.footer (Stack.set_size m W H)) with (Stack.footer m).
  change (Stack.header (Stack.set_size m W H)) with (Stack.header m).
  rewrite Hf. simpl.
  rewrite IntFacts.wrap_sub_sub, IntFacts.wrap_in_range by assumption.
  rewrite (StackFacts.forward_nonempty w (Stack.set_size m W H) _ t Ht).
  eexists. split; [reflexivity|]. simpl. repeat split. discriminate.
Qed.

End Frame.

(** The header of the specification's scenario, with an entry without
    breadcrumb in between. *)
Example header_of_services_then_deploy :
  @Stack.header _ Demo.plain
    (Demo.stack_of [Demo.services; Demo.entry "palette" "" ""; Demo.deploy])
  = "Services > Deploy".
Proof. reflexivity. Qed.

Lemma footer_bindings_witness :
  let m := Demo.stack_of [Demo.services; Demo.deploy] in
  Stack.top m = Some Demo.deploy
  /\ @Stack.footer _ Demo.plain m
     = Some ("Navigation: [Ctrl+C] Quit [Ctrl+D] Previous command "
             +:+ "[Ctrl+S] Copy command to clipboard").
Proof.
  intros m. split; [reflexivity|].
  destruct (@footer_bindings _ Demo.plain m Demo.deploy eq_refl)
    as (commands & Hc & Hf & _).
  rewrite Hf. vm_compute in Hc. injection Hc as <-. reflexivity.
Defined.

Lemma resize_forwards_session_size_witness :
  let m := Demo.stack_of [Demo.services] in
  let f := Demo.nl +:+ "Navigation: [Ctrl+C] Quit" in
  Stack.top m = Some Demo.services
  /\ @Stack.footer _ Demo.framed m = Some f
  /\ lipgloss.Height (@Stack.header _ Demo.framed m) = 3
  /\ lipgloss.Height f = 2
  /\ Int.in_range (40 - 3 - 2)
  /\ @Stack.Update _ _ _ Demo.framed Demo.world m (tea.WindowSizeMsg 100 40)
     = Some (Demo.world,
             MkStackModel None
               [MkModelWithCmd
                  (Demo.Recorder "services" [tea.SizeMsg (MkStackSizeMsg 100 35 3)])
                  "" "Services"]
               100 40,
             tea.Task "services").
Proof.
  intros m f.
  assert (Hr : Int.in_range
                 (40 - lipgloss.Height (@Stack.header _ Demo.framed m)
                  - lipgloss.Height f))
    by (split; vm_compute; discriminate).
  repeat (split; [reflexivity|]). split; [exact Hr|].
  destruct (@resize_forwards_session_size _ _ _ Demo.framed Demo.world m 100 40
              Demo.services f eq_refl eq_refl Hr)
    as (m' & HU & Hw & Hh & Hs & Hsp & _).
  rewrite HU. destruct m' as [sp st wd ht]. simpl in Hw, Hh, Hs, Hsp. subst.
  reflexivity.
Defined.

(** ** More of the stack: what the operations keep, and how they compose *)

Module StackMoreFacts.
Section WithScreens.

Context {Screen : Type} {screens : tea.Model Screen}
        {errors : ErrorScreen Screen} {theme : Theme}.

Implicit Types (m : StackModel Screen) (e : ModelWithCmd Screen) (w : World).

Lemma set_stack_twice m (l l' : list (ModelWithCmd Screen)) :
  Stack.set_stack (Stack.set_stack m l) l' = Stack.set_stack m l'.
Proof. reflexivity. Qed.

Lemma set_stack_same m : Stack.set_stack m (stack m) = m.
Proof. now destruct m. Qed.

Lemma Pop_set_stack_snoc m (l : list (ModelWithCmd Screen)) e :
  Stack.Pop (Stack.set_stack m (l ++ [e])) = Stack.set_stack m l.
Proof.
  unfold Stack.Pop. simpl. rewrite length_app. simpl.
  replace (0 <? length l + 1)%nat with true by (symmetry; apply Nat.ltb_lt; lia).
  replace (length l + 1 - 1)%nat with (length l) by lia.
  now rewrite take_app_length.
Qed.

Lemma Pop_eq m :
  Stack.Pop m = Stack.set_stack m (take (length (stack m) - 1) (stack m)).
Proof.
  unfold Stack.Pop. destruct (stack m) as [|e l] eqn:E; simpl.
  - rewrite <- E. symmetry. apply set_stack_same.
  - reflexivity.
Qed.

Lemma push_all_eq (models : list (ModelWithCmd Screen)) : forall m,
  StackView.push_all m models = Stack.set_stack m (stack m ++ models).
Proof.
  induction models as [|e models IH]; intros m.
  - simpl. rewrite app_nil_r. symmetry. apply set_stack_same.
  - simpl. rewrite IH. simpl. now rewrite <- app_assoc.
Qed.

(** Forwarding keeps the replay command and the breadcrumb of every
    entry. *)
Lemma forward_metadata w m subMsg w' m' cmd :
  Stack.forward w m subMsg = Some (w', m', cmd) ->
  forall i e e',
    stack m !! i = Some e -> stack m' !! i = Some e' ->
    Cmd e' = Cmd e /\ Breadcrumb e' = Breadcrumb e.
Proof.
  intros Hf i e e' Hi Hi'.
  destruct (decide (i = length (stack m) - 1)%nat) as [->|Hne].
  - assert (Hs : stack m <> []) by (intros E; rewrite E in Hi; discriminate).
    destruct (StackFacts.top_is_Some m Hs) as [t Ht].
    rewrite (StackFacts.forward_nonempty w m subMsg t Ht) in Hf.
    injection Hf as <- <- <-. simpl in Hi'.
    pose proof (StackFacts.top_lookup m t Ht) as Hl.
    rewrite Hl in Hi. injection Hi as <-.
    rewrite list_lookup_insert_eq in Hi' by (now apply lookup_lt_Some in Hl).
    injection Hi' as <-. split; reflexivity.
  - apply StackFacts.forward_frame in Hf as (_ & _ & _ & _ & _ & Hsame).
    rewrite (Hsame i Hne) in Hi'. rewrite Hi in Hi'. now injection Hi' as <-.
Qed.

(** Everything that one dispatch leaves alone. *)
Lemma Update_effect w m msg w' m' cmd :
  Stack.Update w m msg = Some (w', m', cmd) ->
  ((exists next, msg = tea.ClearScreenMsg next)
   \/ ((length (stack m') <= S (length (stack m)))%nat
       /\ (length (stack m) <= S (length (stack m')))%nat
       /\ forall i, (i < length (stack m) - 1)%nat -> stack m' !! i = stack m !! i))
  /\ (forall i e e',
        stack m !! i = Some e -> stack m' !! i = Some e' ->
        Cmd e' = Cmd e /\ Breadcrumb e' = Breadcrumb e)
  /\ ((forall W H, msg <> tea.WindowSizeMsg W H) ->
      width m' = width m /\ height m' = height m)
  /\ ((forall k, msg = tea.KeyMsg k -> Type_ k <> KeyCtrlS) ->
      clipboardText w' = clipboardText w)
  /\ clipboardWorks w' = clipboardWorks w
  /\ ((forall task, msg <> tea.LoadingDataMsg task) ->
      lastSpinnerID w' = lastSpinnerID w).
Proof.
  intros HU. unfold Stack.Update in HU.
  destruct (length (stack m) =? 0)%nat eqn:Hz.
  { injection HU as <- <- <-. split; [right; repeat split; auto|].
    split; [intros i e e' H1 H2; rewrite H1 in H2; now injection H2 as <-|].
    repeat split; reflexivity. }
  assert (Hne : stack m <> []).
  { intros E. rewrite E in Hz. discriminate. }
  (* the state that does not move *)
  assert (Hsame : forall m0 : StackModel Screen,
             stack m0 = stack m ->
             ((length (stack m0) <= S (length (stack m)))%nat
              /\ (length (stack m) <= S (length (stack m0)))%nat
              /\ forall i, (i < length (stack m) - 1)%nat -> stack m0 !! i = stack m !! i)
             /\ (forall i e e',
                   stack m !! i = Some e -> stack m0 !! i = Some e' ->
                   Cmd e' = Cmd e /\ Breadcrumb e' = Breadcrumb e)).
  { intros m0 E. rewrite E. split; [repeat split; auto|].
    intros i e e' H1 H2. rewrite H1 in H2. now injection H2 as <-. }
  (* a pop *)
  assert (Hpop :
             ((length (stack (Stack.Pop m)) <= S (length (stack m)))%nat
              /\ (length (stack m) <= S (length (stack (Stack.Pop m))))%nat
              /\ forall i, (i < length (stack m) - 1)%nat ->
                           stack (Stack.Pop m) !! i = stack m !! i)
             /\ (forall i e e',
                   stack m !! i = Some e -> stack (Stack.Pop m) !! i = Some e' ->
                   Cmd e' = Cmd e /\ Breadcrumb e' = Breadcrumb e)).
  { rewrite StackFacts.stack_Pop. split.
    - rewrite length_take. repeat split; try lia.
      intros i Hi. now apply lookup_take_lt.
    - intros i e e' H1 H2. apply lookup_take_Some in H2 as [H2 _].
      rewrite H1 in H2. now injection H2 as <-. }
  (* a push *)
  assert (Hpush : forall e0,
             ((length (stack m ++ [e0]) <= S (length (stack m)))%nat
              /\ (length (stack m) <= S (length (stack m ++ [e0])))%nat
              /\ forall i, (i < length (stack m) - 1)%nat ->
                           (stack m ++ [e0]) !! i = stack m !! i)
             /\ (forall i e e',
                   stack m !! i = Some e -> (stack m ++ [e0]) !! i = Some e' ->
                   Cmd e' = Cmd e /\ Breadcrumb e' = Breadcrumb e)).
  { intros e0. rewrite length_app. simpl. split.
    - repeat split; try lia. intros i Hi. apply lookup_app_l. lia.
    - intros i e e' H1 H2. rewrite (lookup_app_l_Some _ _ _ _ H1) in H2.
      now injection H2 as <-. }
  (* a forward from a state with the entries [l0] *)
  assert (Hfw : forall w0 m0 sub,
             Stack.forward w0 m0 sub = Some (w', m', cmd) ->
             w' = w0
             /\ width m' = width m0 /\ height m' = height m0
             /\ length (stack m') = length (stack m0)
             /\ (forall i, (i <> length (stack m0) - 1)%nat ->
                           stack m' !! i = stack m0 !! i)
             /\ (forall i e e',
                   stack m0 !! i = Some e -> stack m' !! i = Some e' ->
                   Cmd e' = Cmd e /\ Breadcrumb e' = Breadcrumb e)).
  { intros w0 m0 sub Hf.
    pose proof (forward_metadata _ _ _ _ _ _ Hf) as Hmeta.
    apply StackFacts.forward_frame in Hf as (-> & _ & Hw & Hh & Hl & Hi). auto 10. }
  assert (Hfw_m : forall sub,
             Stack.forward w m sub = Some (w', m', cmd) ->
             (((length (stack m') <= S (length (stack m)))%nat
               /\ (length (stack m) <= S (length (stack m')))%nat
               /\ forall i, (i < length (stack m) - 1)%nat ->
                            stack m' !! i = stack m !! i)
              /\ (forall i e e',
                    stack m !! i = Some e -> stack m' !! i = Some e' ->
                    Cmd e' = Cmd e /\ Breadcrumb e' = Breadcrumb e))
             /\ w' = w /\ width m' = width m /\ height m' = height m).
  { intros sub Hf. destruct (Hfw _ _ _ Hf) as (Ew & Hw & Hh & Hl & Hi & Hmeta).
    split; [split; [split; [lia | split; [lia | intros i Hlt; apply Hi; lia]]
                   | exact Hmeta]
           | auto]. }
  destruct msg as [k|W H|next|task| |Err|ID tg|Message|sz|payload]; cbv zeta in HU.
  - (* a key *)
    destruct (Type_ k) eqn:Hk;
      try (destruct (Hfw_m _ HU) as ((Hd & Hmeta) & -> & Hw & Hh);
           split; [right; exact Hd|]; split; [exact Hmeta|]; now auto).
    + injection HU as <- <- <-. destruct (Hsame m eq_refl) as (Hd & Hmeta).
      split; [right; exact Hd|]. split; [exact Hmeta|]. auto.
    + assert (m' = Stack.Pop m /\ w' = w) as [-> ->].
      { destruct (length (stack (Stack.Pop m)) =? 0)%nat;
          now injection HU as <- <- <-. }
      destruct Hpop as (Hd & Hmeta). split; [right; exact Hd|].
      split; [exact Hmeta|].
      destruct (StackFacts.Pop_frame m) as (_ & Hw & Hh). auto.
    + destruct (StackFacts.top_is_Some m Hne) as [t Ht].
      destruct (StackFacts.copyCommand_cases w m t Ht) as [[Hcw Hc]|[Hcw Hc]];
        rewrite Hc in HU; simpl in HU;
        destruct (Hfw _ _ _ HU) as (-> & Hw & Hh & Hl & Hi & Hmeta); simpl in *.
      * split; [right; repeat split; try lia; intros i Hlt; apply Hi; lia|].
        split; [exact Hmeta|]. split; [auto|].
        split; [intros Hno; now destruct (Hno k eq_refl)|]. auto.
      * destruct (Hpush (MkModelWithCmd
                           (NewErrorModel "Failed to copy command to clipboard") "" ""))
          as ((Hd1 & Hd2 & Hd3) & Hmeta0).
        rewrite length_app in Hl, Hi. simpl in Hl, Hi.
        split.
        { right. repeat split; try lia.
          intros i Hlt. rewrite Hi by lia. now apply Hd3. }
        split.
        { intros i e e' H1 H2. apply (Hmeta i e e'); [|exact H2].
          now apply lookup_app_l_Some. }
        split; [auto|]. split; [intros Hno; now destruct (Hno k eq_refl)|]. auto.
  - (* a resize *)
    destruct (Stack.StackSizeMsg (Stack.set_size m W H)) as [s|]; [|discriminate].
    simpl in HU. destruct (Hfw _ _ _ HU) as (-> & Hw & Hh & Hl & Hi & Hmeta).
    simpl in *.
    split; [right; repeat split; try lia; intros i Hlt; apply Hi; lia|].
    split; [exact Hmeta|]. split; [intros Hno; now destruct (Hno W H)|]. auto.
  - (* a clear *)
    injection HU as <- <- <-. split; [left; eauto|].
    split; [intros i e e' _ H2; discriminate|]. auto.
  - (* loading starts *)
    destruct (Stack.newSpinner w) as [spin w1] eqn:Hsp. injection HU as <- <- <-.
    destruct (Hsame (Stack.set_loadingSpinner m (Some spin)) eq_refl) as (Hd & Hmeta).
    split; [right; exact Hd|]. split; [exact Hmeta|].
    unfold Stack.newSpinner in Hsp. injection Hsp as <- <-. simpl.
    repeat split; auto. intros Hno. now destruct (Hno task).
  - (* loading ends *)
    injection HU as <- <- <-.
    destruct (Hsame (Stack.set_loadingSpinner m None) eq_refl) as (Hd & Hmeta).
    split; [right; exact Hd|]. split; [exact Hmeta|]. auto.
  - (* an error *)
    injection HU as <- <- <-. simpl.
    destruct (Hpush (MkModelWithCmd (NewErrorModel Err) "" "")) as (Hd & Hmeta).
    split; [right; exact Hd|]. split; [exact Hmeta|]. auto.
  - (* a tick *)
    destruct (loadingSpinner m) as [s|].
    + destruct (spinner.Update s _) as [spin c]. injection HU as <- <- <-.
      destruct (Hsame (Stack.set_loadingSpinner m (Some spin)) eq_refl) as (Hd & Hmeta).
      split; [right; exact Hd|]. split; [exact Hmeta|]. auto.
    + destruct (Hfw_m _ HU) as ((Hd & Hmeta) & -> & Hw & Hh).
      split; [right; exact Hd|]. split; [exact Hmeta|]. auto.
  - (* done *)
    assert (m' = Stack.Pop m /\ w' = w) as [-> ->].
    { destruct (length (stack (Stack.Pop m)) =? 0)%nat; now injection HU as <- <- <-. }
    destruct Hpop as (Hd & Hmeta). split; [right; exact Hd|].
    split; [exact Hmeta|].
    destruct (StackFacts.Pop_frame m) as (_ & Hw & Hh). auto.
  - destruct (Hfw_m _ HU) as ((Hd & Hmeta) & -> & Hw & Hh).
    split; [right; exact Hd|]. split; [exact Hmeta|]. auto.
  - destruct (Hfw_m _ HU) as ((Hd & Hmeta) & -> & Hw & Hh).
    split; [right; exact Hd|]. split; [exact Hmeta|]. auto.
Qed.

End WithScreens.
End StackMoreFacts.

Section StackDiscipline.

Context {Screen : Type} {screens : tea.Model Screen}
        {errors : ErrorScreen Screen} {theme : Theme}.

Implicit Types (m : StackModel Screen) (e : ModelWithCmd Screen) (w : World).

(** X1.  Pushing the entries [models] one after the other and then popping
    as many times gives back the stack model that one started from; after
    the pushes the entries are the old ones followed by [models], and the
    top is the entry pushed last. *)
Theorem push_all_then_pop_restores m (models : list (ModelWithCmd Screen)) :
  StackView.pop_n (length models) (StackView.push_all m models) = m
  /\ stack (StackView.push_all m models) = stack m ++ models
  /\ (forall e, Stack.top (StackView.push_all m (models ++ [e])) = Some e).
Proof.
  split; [|split].
  - rewrite StackMoreFacts.push_all_eq. unfold StackView.pop_n.
    induction models as [|e models IH] using rev_ind.
    + simpl. rewrite app_nil_r. apply StackMoreFacts.set_stack_same.
    + rewrite length_app. simpl. rewrite Nat.add_1_r, Nat.iter_succ_r.
      rewrite app_assoc, StackMoreFacts.Pop_set_stack_snoc. exact IH.
  - now rewrite StackMoreFacts.push_all_eq.
  - intros e. rewrite StackMoreFacts.push_all_eq.
    apply (StackFacts.top_snoc _ (stack m ++ models)). simpl. now rewrite app_assoc.
Qed.

(** X2.  [footer] and [StackSizeMsg] index the last entry without a test:
    they panic exactly on the empty stack.  [Pop] on the empty stack is
    the identity, and popping a stack of any depth that many times or more
    leaves it empty. *)
Theorem footer_panics_exactly_on_empty_stack m :
  (Stack.footer m = None <-> stack m = [])
  /\ (Stack.StackSizeMsg m = None <-> stack m = [])
  /\ (forall n, (length (stack m) <= n)%nat -> stack (StackView.pop_n n m) = []).
Proof.
  assert (Hf : Stack.footer m = None <-> stack m = []).
  { split.
    - intros Hn. destruct (stack m) as [|e l] eqn:E; [reflexivity|].
      assert (Hne : stack m <> []) by (rewrite E; discriminate).
      destruct (StackFacts.footer_is_Some m Hne) as [f Hf]. congruence.
    - intros E. unfold Stack.footer, Stack.footerCommands, Stack.top.
      now rewrite E. }
  split; [exact Hf|]. split.
  - unfold Stack.StackSizeMsg. rewrite <- Hf.
    destruct (Stack.footer m); simpl; split; congruence.
  - assert (Hlen : forall n m0, length (stack (StackView.pop_n n m0))
                               = (length (stack m0) - n)%nat).
    { induction n as [|n IH]; intros m0; simpl; [lia|].
      rewrite StackFacts.stack_Pop, length_take, IH. lia. }
    intros n Hn. apply length_zero_iff_nil. rewrite Hlen. lia.
Qed.

(** X3.  Whatever the message, except a clear, one dispatch changes the
    depth by one at most, and never touches an entry below the top: the
    top entry is the only one a message can reach. *)
Theorem Update_reaches_only_the_top w m (msg : tea.Msg) :
  (forall next, msg <> tea.ClearScreenMsg next) ->
  exists w' m' cmd,
    Stack.Update w m msg = Some (w', m', cmd)
    /\ (length (stack m') <= S (length (stack m)))%nat
    /\ (length (stack m) <= S (length (stack m')))%nat
    /\ forall i, (i < length (stack m) - 1)%nat -> stack m' !! i = stack m !! i.
Proof.
  intros Hmsg. destruct (StackFacts.Update_is_Some w m msg) as [[[w' m'] cmd] HU].
  exists w', m', cmd. split; [exact HU|].
  destruct (StackMoreFacts.Update_effect _ _ _ _ _ _ HU) as ([[next ->]|Hd] & _).
  - now destruct (Hmsg next).
  - exact Hd.
Qed.

(** X4.  The replay command and the breadcrumb of an entry never change
    while the entry is on the stack: after any dispatch, the entry at an
    index that was occupied before has the command and the breadcrumb it
    had. *)
Theorem Update_keeps_command_and_breadcrumb w m (msg : tea.Msg) :
  exists w' m' cmd,
    Stack.Update w m msg = Some (w', m', cmd)
    /\ forall i e e',
         stack m !! i = Some e -> stack m' !! i = Some e' ->
         Cmd e' = Cmd e /\ Breadcrumb e' = Breadcrumb e.
Proof.
  destruct (StackFacts.Update_is_Some w m msg) as [[[w' m'] cmd] HU].
  exists w', m', cmd. split; [exact HU|].
  now destruct (StackMoreFacts.Update_effect _ _ _ _ _ _ HU) as (_ & Hmeta & _).
Qed.

(** X5.  What a dispatch leaves alone: the recorded width and height
    change on a resize only, the text of the clipboard on the copy key
    only, the counter of spinner identifiers on a Loading-start only. *)
Theorem Update_leaves_alone w m (msg : tea.Msg) :
  exists w' m' cmd,
    Stack.Update w m msg = Some (w', m', cmd)
    /\ ((forall W H, msg <> tea.WindowSizeMsg W H) ->
        width m' = width m /\ height m' = height m)
    /\ ((forall k, msg = tea.KeyMsg k -> Type_ k <> KeyCtrlS) ->
        clipboardText w' = clipboardText w)
    /\ ((forall task, msg <> tea.LoadingDataMsg task) ->
        lastSpinnerID w' = lastSpinnerID w).
Proof.
  destruct (StackFacts.Update_is_Some w m msg) as [[[w' m'] cmd] HU].
  exists w', m', cmd. split; [exact HU|].
  destruct (StackMoreFacts.Update_effect _ _ _ _ _ _ HU) as (_ & _ & H1 & H2 & _ & H3).
  auto.
Qed.

End StackDiscipline.

Lemma Update_reaches_only_the_top_witness :
  let m := Demo.stack_of [Demo.services; Demo.deploy] in
  (forall next, Demo.CtrlS <> tea.ClearScreenMsg next)
  /\ exists w' m' cmd,
       @Stack.Update _ _ _ Demo.plain Demo.world_without_clipboard m Demo.CtrlS
       = Some (w', m', cmd)
       /\ stack m' !! 0%nat = Some Demo.services.
Proof.
  intros m.
  assert (H : forall next, Demo.CtrlS <> tea.ClearScreenMsg next) by discriminate.
  split; [exact H|].
  destruct (@Update_reaches_only_the_top _ _ _ Demo.plain
              Demo.world_without_clipboard m Demo.CtrlS H)
    as (w' & m' & cmd & HU & _ & _ & Hlow).
  exists w', m', cmd. split; [exact HU|].
  rewrite (Hlow 0%nat) by (simpl; lia). reflexivity.
Defined.

Section Runs.

Context {Screen : Type} {screens : tea.Model Screen}
        {errors : ErrorScreen Screen} {theme : Theme} {layout : Layout}.

Implicit Types (m : StackModel Screen) (e : ModelWithCmd Screen) (w : World).

Lemma Update_interrupt w m (k : Key) :
  Type_ k = KeyCtrlD -> stack m <> [] ->
  Stack.Update w m (tea.KeyMsg k)
  = Some (w, Stack.Pop m,
          if (length (stack (Stack.Pop m)) =? 0)%nat then tea.Quit
          else Stack.Init (Stack.Pop m)).
Proof.
  intros Hk Hne. unfold Stack.Update.
  destruct (StackFacts.nonempty_eqb _ Hne) as [-> _]. rewrite Hk. cbv zeta.
  now destruct (length (stack (Stack.Pop m)) =? 0)%nat.
Qed.

Lemma interrupts_unwind_aux w (k : Key) (n : nat) :
  Type_ k = KeyCtrlD ->
  forall m, length (stack m) = S n ->
  exists cmds,
    StackView.dispatch_trace w m (replicate (S n) (tea.KeyMsg k))
    = Some (w, Stack.set_stack m [], cmds)
    /\ length cmds = S n
    /\ cmds !! n = Some tea.Quit
    /\ forall i, (i < n)%nat ->
         cmds !! i = Some (Stack.Init (Stack.set_stack m (take (n - i) (stack m)))).
Proof.
  intros Hk. induction n as [|n IH]; intros m Hlen.
  - assert (Hne : stack m <> []) by (intros E; rewrite E in Hlen; discriminate).
    simpl. rewrite (Update_interrupt w m k Hk Hne).
    rewrite StackFacts.stack_Pop, length_take, Hlen. simpl.
    exists [tea.Quit]. rewrite StackMoreFacts.Pop_eq, Hlen. simpl.
    rewrite take_0. repeat split. intros i Hi. lia.
  - assert (Hne : stack m <> []) by (intros E; rewrite E in Hlen; discriminate).
    assert (HlenP : length (stack (Stack.Pop m)) = S n).
    { rewrite StackFacts.stack_Pop, length_take. lia. }
    destruct (IH (Stack.Pop m) HlenP) as (cmds & HD & Hl & Hlast & Hinit).
    change (replicate (S (S n)) (tea.KeyMsg k))
      with (tea.KeyMsg k :: replicate (S n) (tea.KeyMsg k)).
    cbn [StackView.dispatch_trace].
    rewrite (Update_interrupt w m k Hk Hne), HlenP.
    cbn [mbind option_bind Nat.eqb]. rewrite HD. cbn [mbind option_bind].
    exists (Stack.Init (Stack.Pop m) :: cmds).
    split; [now rewrite StackMoreFacts.Pop_eq|].
    split; [simpl; now rewrite Hl|]. split; [exact Hlast|].
    intros [|i] Hi.
    + simpl. rewrite StackMoreFacts.Pop_eq, Hlen. reflexivity.
    + simpl. rewrite Hinit by lia.
      rewrite StackMoreFacts.Pop_eq, Hlen. simpl.
      replace (S n - 0)%nat with (S n) by lia.
      rewrite take_take. replace ((n - i) `min` S n)%nat with (n - i)%nat by lia.
      reflexivity.
Qed.

(** X6.  As many interrupt keys as the stack has entries unwind it
    entirely: every dispatch but the last is answered with [Init] of the
    entries that are left, the last one with [tea.Quit], and the stack is
    empty at the end, the rest of the state as it was. *)
Theorem interrupts_unwind_the_stack w m (k : Key) :
  Type_ k = KeyCtrlD ->
  stack m <> [] ->
  let n := length (stack m) in
  exists cmds,
    StackView.dispatch_trace w m (replicate n (tea.KeyMsg k))
    = Some (w, Stack.set_stack m [], cmds)
    /\ length cmds = n
    /\ cmds !! (n - 1)%nat = Some tea.Quit
    /\ forall i, (i < n - 1)%nat ->
         cmds !! i
         = Some (Stack.Init (Stack.set_stack m (take (n - 1 - i) (stack m)))).
Proof.
  intros Hk Hne n.
  destruct (length (stack m)) as [|n'] eqn:Hlen.
  { apply length_zero_iff_nil in Hlen. congruence. }
  subst n. replace (S n' - 1)%nat with n' by lia.
  exact (interrupts_unwind_aux w k n' Hk m Hlen).
Qed.

(** X7.  A clear event empties the stack and hands back the message it
    carries; when that message is dispatched next, with nothing pushed in
    between, it meets the empty stack and is answered with [tea.Quit],
    whatever it is. *)
Theorem clear_then_next_message_quits w m (next : tea.Msg) :
  stack m <> [] ->
  StackView.dispatch_trace w m [tea.ClearScreenMsg next; next]
  = Some (w, Stack.set_stack m [], [tea.Return next; tea.Quit]).
Proof.
  intros Hne. cbn [StackView.dispatch_trace].
  assert (H1 : Stack.Update w m (tea.ClearScreenMsg next)
               = Some (w, Stack.set_stack m [], tea.Return next)).
  { unfold Stack.Update. destruct (StackFacts.nonempty_eqb _ Hne) as [-> _].
    now rewrite take_0. }
  assert (H2 : Stack.Update w (Stack.set_stack m []) next
               = Some (w, Stack.set_stack m [], tea.Quit)) by reflexivity.
  rewrite H1. cbn [mbind option_bind]. rewrite H2. reflexivity.
Qed.


(** X9.  The commands that [Init] hands to the runtime are the [Init]
    commands of the screens, one screen after the other from the bottom
    of the stack to its top, and nothing else (none at all for the empty
    stack); those of [Push] are the [Init] commands of the screen pushed,
    followed by the deferred session-size message. *)
Theorem Init_runs_the_screens_Init m e :
  tea.leaves (Stack.Init m)
  = flat_map (fun e => tea.leaves (tea.Init (Model e))) (stack m)
  /\ (stack m = [] -> Stack.Init m = tea.nil)
  /\ tea.leaves (Stack.Push m e).2
     = tea.leaves (tea.Init (Model e)) ++ [tea.StackSize].
Proof.
  split; [apply StackFacts.leaves_Init|]. split.
  - intros E. unfold Stack.Init. rewrite E. reflexivity.
  - unfold Stack.Push. cbn [snd]. rewrite TeaFacts.leaves_Batch. simpl.
    reflexivity.
Qed.


End Runs.

Lemma interrupts_unwind_the_stack_witness :
  let m := Demo.stack_of [Demo.services; Demo.deploy] in
  Type_ (MkKey KeyCtrlD "" false) = KeyCtrlD
  /\ stack m <> []
  /\ @StackView.dispatch_trace _ _ _ Demo.plain Demo.world m [Demo.CtrlD; Demo.CtrlD]
     = Some (Demo.world, Demo.stack_of [], [tea.Task "services"; tea.Quit]).
Proof.
  intros m. split; [reflexivity|]. split; [discriminate|].
  destruct (@interrupts_unwind_the_stack _ _ _ Demo.plain Demo.world m
              (MkKey KeyCtrlD "" false) eq_refl ltac:(discriminate))
    as (cmds & HD & Hlen & Hlast & Hinit).
  change (replicate (length (stack m)) (tea.KeyMsg (MkKey KeyCtrlD "" false)))
    with [Demo.CtrlD; Demo.CtrlD] in HD.
  rewrite HD. do 2 f_equal.
  destruct cmds as [|c0 [|c1 [|c2 cmds]]]; try discriminate.
  specialize (Hinit 0%nat ltac:(simpl; lia)).
  simpl in Hlast, Hinit. injection Hlast as ->. injection Hinit as ->. reflexivity.
Defined.

Lemma clear_then_next_message_quits_witness :
  let m := Demo.stack_of [Demo.services] in
  stack m <> []
  /\ @StackView.dispatch_trace _ _ _ Demo.plain Demo.world m
       [tea.ClearScreenMsg (tea.OtherMsg "workspace"); tea.OtherMsg "workspace"]
     = Some (Demo.world, Demo.stack_of [],
             [tea.Return (tea.OtherMsg "workspace"); tea.Quit]).
Proof.
  intros m. split; [discriminate|].
  exact (@clear_then_next_message_quits _ _ _ Demo.plain Demo.world m
           (tea.OtherMsg "workspace") ltac:(discriminate)).
Defined.

(** ** The commands on resources *)

Module GoStringFacts.

Lemma HasPrefix_empty (s : string) : gostrings.HasPrefix s "" = true.
Proof. reflexivity. Qed.

Lemma Contains_empty (s : string) : gostrings.Contains s "" = true.
Proof. destruct s; reflexivity. Qed.

Lemma HasPrefix_append (f g : string) : forall s,
  gostrings.HasPrefix s (f +:+ g) = true -> gostrings.HasPrefix s f = true.
Proof.
  induction f as [|c f IH]; intros s H; [reflexivity|].
  change (String c f +:+ g) with (String c (f +:+ g)) in H.
  destruct s as [|d s]; simpl in *; [discriminate|].
  apply andb_true_iff in H as [Hc Hs]. rewrite Hc. simpl. now apply IH.
Qed.

Lemma Contains_append (f g : string) : forall s,
  gostrings.Contains s (f +:+ g) = true -> gostrings.Contains s f = true.
Proof.
  induction s as [|d s IH]; intros H.
  - simpl in *. rewrite orb_false_r in *. now apply HasPrefix_append with g.
  - cbn [gostrings.Contains] in *. apply orb_true_iff in H as [H|H].
    + apply HasPrefix_append in H. now rewrite H.
    + rewrite (IH H). apply orb_true_r.
Qed.

End GoStringFacts.

Section ResourceCommands.

Context {R : Type} {resources : resource.Resource R}
        {types : cmd.ResourceTypes} {casing : Casing}.

Lemma optionallyAddCommand_loop_eq (commands : list cmd.PaletteCommand)
    (c : cmd.PaletteCommand) (allowedTypes : list string) (r : R) :
  cmd.optionallyAddCommand_loop commands c allowedTypes r
  = if decide (resource.Type_ r ∈ allowedTypes) then commands ++ [c] else commands.
Proof.
  induction allowedTypes as [|a l IH]; cbn [cmd.optionallyAddCommand_loop].
  - destruct (decide (resource.Type_ r ∈ [])) as [H|H];
      [now apply not_elem_of_nil in H | reflexivity].
  - destruct (decide (resource.Type_ r ∈ a :: l)) as [Hin|Hin];
      destruct (String.eqb_spec (resource.Type_ r) a) as [E|E]; try reflexivity.
    + rewrite IH. apply elem_of_cons in Hin as [?|Hin]; [congruence|].
      now rewrite decide_True.
    + exfalso. apply Hin. rewrite E. apply list_elem_of_here.
    + rewrite IH. rewrite decide_False; [reflexivity|].
      intros H. apply Hin. now apply list_elem_of_further.
Qed.

Lemma optionallyAddCommand_eq (commands : list cmd.PaletteCommand)
    (c : cmd.PaletteCommand) (allowedTypes : list string) (r : R) :
  cmd.optionallyAddCommand commands c allowedTypes r
  = if decide (allowedTypes = [] \/ resource.Type_ r ∈ allowedTypes)
    then commands ++ [c] else commands.
Proof.
  unfold cmd.optionallyAddCommand. destruct allowedTypes as [|a l].
  - destruct (decide ([] = [] \/ resource.Type_ r ∈ [])) as [H|H];
      [reflexivity | exfalso; apply H; now left].
  - change (length (a :: l) =? 0)%nat with false. cbv iota.
    rewrite optionallyAddCommand_loop_eq.
    destruct (decide (resource.Type_ r ∈ a :: l)) as [Hin|Hin];
      destruct (decide (a :: l = [] \/ resource.Type_ r ∈ a :: l)) as [H|H];
      try reflexivity.
    + exfalso. apply H. now right.
    + destruct H as [?|?]; [discriminate|contradiction].
Qed.

Lemma if_decide_iff {A : Type} (P Q : Prop) `{Decision P} `{Decision Q} (a b : A) :
  (P <-> Q) -> (if decide P then a else b) = (if decide Q then a else b).
Proof. intros HPQ. destruct (decide P), (decide Q); tauto. Qed.

Lemma names_optionallyAddCommand (commands : list cmd.PaletteCommand)
    (c : cmd.PaletteCommand) (allowedTypes : list string) (r : R) :
  cmd.Name <$> cmd.optionallyAddCommand commands c allowedTypes r
  = (cmd.Name <$> commands)
    ++ (if decide (allowedTypes = [] \/ resource.Type_ r ∈ allowedTypes)
        then [cmd.Name c] else []).
Proof.
  rewrite optionallyAddCommand_eq.
  destruct (decide (allowedTypes = [] \/ resource.Type_ r ∈ allowedTypes)).
  - now rewrite fmap_app.
  - now rewrite app_nil_r.
Qed.

Lemma Forall_optionallyAddCommand (Q : cmd.PaletteCommand -> Prop)
    (commands : list cmd.PaletteCommand)
    (c : cmd.PaletteCommand) (allowedTypes : list string) (r : R) :
  Forall Q commands -> Q c ->
  Forall Q (cmd.optionallyAddCommand commands c allowedTypes r).
Proof.
  intros Hcs Hc. rewrite optionallyAddCommand_eq.
  destruct (decide _); [|assumption]. apply Forall_app. split; [assumption|].
  now constructor.
Qed.

(** X11.  [optionallyAddCommand] gives back the commands it was given,
    in order, with the new command behind them, once, when no type is
    required or the type of the resource is one of the allowed types
    (even if it is listed twice), and with nothing added otherwise. *)
Theorem optionallyAddCommand_adds_at_most_once (commands : list cmd.PaletteCommand)
    (c : cmd.PaletteCommand) (allowedTypes : list string) (r : R) :
  (allowedTypes = [] \/ resource.Type_ r ∈ allowedTypes ->
   cmd.optionallyAddCommand commands c allowedTypes r = commands ++ [c])
  /\ (allowedTypes <> [] -> resource.Type_ r ∉ allowedTypes ->
      cmd.optionallyAddCommand commands c allowedTypes r = commands).
Proof.
  rewrite optionallyAddCommand_eq. split.
  - intros H. now rewrite decide_True.
  - intros H1 H2. rewrite decide_False; [reflexivity|]. intros [?|?]; contradiction.
Qed.

(** X12.  The palette of a resource offers logs and restart for every
    resource, psql for the postgres type only, deploy for the service
    types (for every resource if that list is empty), ssh for web
    services, private services and background workers only, in this
    order; and every command offered acts on the resource itself. *)
Theorem selectResource_offers (r : R) :
  cmd.Name <$> cmd.selectResource r
  = ["logs"; "restart"]
    ++ (if decide (resource.Type_ r = cmd.PostgresType) then ["psql"] else [])
    ++ (if decide (cmd.ServiceTypes = [] \/ resource.Type_ r ∈ cmd.ServiceTypes)
        then ["deploy"] else [])
    ++ (if decide (resource.Type_ r
                   ∈ [cmd.WebServiceResourceType; cmd.PrivateServiceResourceType;
                      cmd.BackgroundWorkerResourceType])
        then ["ssh"] else [])
  /\ Forall (fun c => forall args, cmd.targets (cmd.Action c args) = [resource.ID r])
            (cmd.selectResource r).
Proof.
  unfold cmd.selectResource, cmd.commandWithTypes. cbn [fold_left fst snd]. split.
  - rewrite !names_optionallyAddCommand. cbn [fmap list_fmap app cmd.Name].
    rewrite (if_decide_iff ([] = [] \/ resource.Type_ r ∈ []) True) by tauto.
    rewrite (if_decide_iff (_ \/ resource.Type_ r ∈ [cmd.PostgresType])
               (resource.Type_ r = cmd.PostgresType)).
    2:{ rewrite list_elem_of_singleton. split; [intros [?|?]; [discriminate|assumption]|auto]. }
    rewrite (if_decide_iff
               (_ \/ resource.Type_ r
                     ∈ [cmd.WebServiceResourceType; cmd.PrivateServiceResourceType;
                        cmd.BackgroundWorkerResourceType])
               (resource.Type_ r
                ∈ [cmd.WebServiceResourceType; cmd.PrivateServiceResourceType;
                   cmd.BackgroundWorkerResourceType])).
    2:{ split; [intros [?|?]; [discriminate|assumption]|auto]. }
    rewrite decide_True by exact I. simpl. rewrite <- !app_assoc. reflexivity.
  - repeat apply Forall_optionallyAddCommand; try (intros args; reflexivity).
    constructor.
Qed.

(** X13.  The text filter of the resource table: the empty filter keeps
    every resource; a filter keeps a resource exactly when it occurs in
    one of the five fields in lower case; and a resource that a longer
    filter keeps is kept by each of the filter's beginnings, so typing on
    never brings a row back. *)
Theorem filterResource_narrows (r : R) (f g : string) :
  cmd.filterResource r "" = true
  /\ (cmd.filterResource r f = true <->
      exists field,
        field ∈ [resource.ID r; resource.Name r; resource.ProjectName r;
                 resource.EnvironmentName r; resource.Type_ r]
        /\ gostrings.Contains (ToLower field) f = true)
  /\ (cmd.filterResource r (f +:+ g) = true -> cmd.filterResource r f = true).
Proof.
  assert (Hloop : forall fields flt,
             cmd.filterResource_loop fields flt = true <->
             exists field, field ∈ fields
                           /\ gostrings.Contains (ToLower field) flt = true).
  { induction fields as [|x l IH]; intros flt; simpl.
    - split; [discriminate|]. intros (fd & Hin & _). now apply not_elem_of_nil in Hin.
    - destruct (gostrings.Contains (ToLower x) flt) eqn:Hx.
      + split; [|reflexivity]. intros _. exists x. split; [apply list_elem_of_here|exact Hx].
      + rewrite IH. split.
        * intros (fd & Hin & Hc). exists fd. split; [now apply list_elem_of_further|exact Hc].
        * intros (fd & Hin & Hc). apply elem_of_cons in Hin as [->|Hin]; [congruence|eauto]. }
  split; [|split].
  - unfold cmd.filterResource. simpl. now rewrite GoStringFacts.Contains_empty.
  - apply Hloop.
  - unfold cmd.filterResource. rewrite !Hloop. intros (fd & Hin & Hc).
    exists fd. split; [exact Hin|]. now apply GoStringFacts.Contains_append with g.
Qed.

End ResourceCommands.

Lemma optionallyAddCommand_adds_at_most_once_witness :
  let psql := cmd.MkPaletteCommand "psql" "Connect" (fun _ => cmd.InteractivePSQL "dpg-1") in
  (["postgres"; "postgres"] = [] \/ resource.Type_ Samples.db ∈ ["postgres"; "postgres"])
  /\ cmd.optionallyAddCommand [] psql ["postgres"; "postgres"] Samples.db = [psql].
Proof.
  intros psql.
  assert (H : ["postgres"; "postgres"] = []
              \/ resource.Type_ Samples.db ∈ ["postgres"; "postgres"])
    by (right; apply list_elem_of_here).
  split; [exact H|].
  exact (proj1 (optionallyAddCommand_adds_at_most_once [] psql
                  ["postgres"; "postgres"] Samples.db) H).
Defined.

(** ** The resource service and the job repository *)

Section ResourceService.

Context {S P : Type} {backend : resource.Backend S P}.

Lemma append_each {A B : Type} (f : A -> B) (l : list A) : forall acc : list B,
  fold_left (fun acc x => acc ++ [f x]) l acc = acc ++ (f <$> l).
Proof.
  induction l as [|x l IH]; intros acc; simpl.
  - now rewrite app_nil_r.
  - rewrite IH. now rewrite <- app_assoc.
Qed.

(** X14.  [ListResources] succeeds exactly when both listings do; it then
    gives every service, in the order of their listing, followed by every
    database, in the order of theirs, and nothing else; an error of the
    service listing is the one reported, whatever the postgres listing
    says. *)
Theorem ListResources_services_then_databases :
  (forall resources,
     resource.ListResources = inr resources <->
     exists services postgresDBs,
       resource.ListServices = inr services
       /\ resource.ListPostgres = inr postgresDBs
       /\ resources = (inl <$> services) ++ (inr <$> postgresDBs))
  /\ (forall err, resource.ListServices = inl err ->
                  resource.ListResources = inl err).
Proof.
  unfold resource.ListResources. split.
  - intros resources.
    destruct resource.ListServices as [e|services];
      [split; [discriminate | intros (? & ? & ? & _); discriminate]|].
    destruct resource.ListPostgres as [e|dbs];
      [split; [discriminate | intros (? & ? & _ & ? & _); discriminate]|].
    cbv zeta. rewrite !append_each. simpl. split.
    + intros [= <-]. eauto.
    + intros (ss & ds & [= <-] & [= <-] & ->). reflexivity.
  - intros err ->. reflexivity.
Qed.

(** X15.  [RestartResource] reports success only when the restart it
    passed the identifier to did: the service restart for an identifier
    with the server prefix, the postgres restart for one with the
    postgres prefix and not the server prefix.  An identifier with
    neither prefix is refused whatever the two restarts would answer:
    as a cron job if it has the cron job prefix, as an unknown resource
    type otherwise. *)
Theorem RestartResource_succeeds_only_by_delegation (id : string) :
  (resource.RestartResource id = None ->
   (gostrings.HasPrefix id resource.ServerResourceIDPrefix = true
    /\ resource.RestartService id = None)
   \/ (gostrings.HasPrefix id resource.ServerResourceIDPrefix = false
       /\ gostrings.HasPrefix id resource.PostgresResourceIDPrefix = true
       /\ resource.RestartPostgresDatabase id = None))
  /\ (gostrings.HasPrefix id resource.ServerResourceIDPrefix = false ->
      gostrings.HasPrefix id resource.PostgresResourceIDPrefix = false ->
      resource.RestartResource id
      = Some (if gostrings.HasPrefix id resource.CronjobResourceIDPrefix
              then "cron jobs cannot be restarted"
              else "unknown resource type")).
Proof.
  unfold resource.RestartResource. split.
  - destruct (gostrings.HasPrefix id resource.ServerResourceIDPrefix); [auto|].
    destruct (gostrings.HasPrefix id resource.PostgresResourceIDPrefix); [auto|].
    destruct (gostrings.HasPrefix id resource.CronjobResourceIDPrefix); discriminate.
  - intros -> ->.
    now destruct (gostrings.HasPrefix id resource.CronjobResourceIDPrefix).
Qed.

End ResourceService.

Section JobRepo.

Context {T : Type} {statuses : job.Statuses T}.

Lemma statusFilters_loop_step (status : string) (rest : list string) (acc : list T) :
  job.statusFilters_loop (status :: rest) acc
  = match job.status_of_name status with
    | Some f => job.statusFilters_loop rest (acc ++ [f])
    | None => inl ("invalid status: " +:+ status)
    end.
Proof.
  cbn [job.statusFilters_loop]. unfold job.status_of_name.
  destruct (String.eqb status "failed"); [reflexivity|].
  destruct (String.eqb status "pending"); [reflexivity|].
  destruct (String.eqb status "running"); [reflexivity|].
  destruct (String.eqb status "succeeded"); reflexivity.
Qed.

Lemma statusFilters_loop_valid (l : list string) : forall (acc filters : list T),
  mapM job.status_of_name l = Some filters ->
  job.statusFilters_loop l acc = inr (acc ++ filters).
Proof.
  induction l as [|status rest IH]; intros acc filters Hm.
  - injection Hm as <-. simpl. now rewrite app_nil_r.
  - rewrite statusFilters_loop_step.
    apply mapM_Some_1 in Hm. apply Forall2_cons_inv_l in Hm as (f & fs & Hf & Hfs & ->).
    rewrite Hf. rewrite (IH _ fs) by (now apply mapM_Some_2).
    now rewrite <- app_assoc.
Qed.

Lemma statusFilters_loop_invalid (pre : list string) : forall (acc : list T) s post,
  Forall (fun x => is_Some (job.status_of_name x)) pre ->
  job.status_of_name s = None ->
  job.statusFilters_loop (pre ++ s :: post) acc = inl ("invalid status: " +:+ s).
Proof.
  induction pre as [|x pre IH]; intros acc s post Hpre Hs.
  - simpl app. rewrite statusFilters_loop_step. now rewrite Hs.
  - apply Forall_cons in Hpre as [[f Hf] Hpre].
    change ((x :: pre) ++ s :: post) with (x :: (pre ++ s :: post)).
    rewrite statusFilters_loop_step, Hf. now apply IH.
Qed.

(** X16.  [ListJobs] checks the status names before it asks the server.
    If one of them is none of failed, pending, running and succeeded, the
    error names the first such status and no parameters are built.  If
    all of them are known, the request has one filter for each name, in
    the same order; with no status at all it carries no status filter.
    The limit is 100 and the six time bounds are passed on as given. *)
Theorem ListJobs_checks_statuses (input : job.ListJobsInput) :
  (forall pre s post,
     job.Status input = pre ++ s :: post ->
     Forall (fun x => is_Some (job.status_of_name (T := T) x)) pre ->
     job.status_of_name (T := T) s = None ->
     job.ListJobs_params (T := T) input = inl ("invalid status: " +:+ s))
  /\ (forall filters,
        mapM job.status_of_name (job.Status input) = Some filters ->
        length filters = length (job.Status input)
        /\ job.ListJobs_params input
           = inr (job.MkListJobParams
                    (job.CreatedBefore input) (job.CreatedAfter input)
                    (job.StartedBefore input) (job.StartedAfter input)
                    (job.FinishedBefore input) (job.FinishedAfter input)
                    (Some 100)
                    (match filters with [] => None | _ => Some filters end))).
Proof.
  split.
  - intros pre s post E Hpre Hs. unfold job.ListJobs_params.
    now rewrite E, (statusFilters_loop_invalid pre [] s post Hpre Hs).
  - intros filters Hm. split.
    + apply mapM_Some_1 in Hm. symmetry. now apply Forall2_length in Hm.
    + unfold job.ListJobs_params.
      rewrite (statusFilters_loop_valid _ [] filters Hm). simpl.
      now destruct filters.
Qed.

End JobRepo.

Lemma ListJobs_checks_statuses_witness :
  let input := job.MkListJobsInput "srv-1" ["failed"; "done"; "nope"]
                 None (Some 5) None None None None in
  job.ListJobs_params (T := Samples.JobStatus) input = inl "invalid status: done"
  /\ job.ListJobs_params (T := Samples.JobStatus)
       (job.MkListJobsInput "srv-1" ["running"; "failed"] None (Some 5) None None None None)
     = inr (job.MkListJobParams None (Some 5) None None None None (Some 100)
              (Some [Samples.JRunning; Samples.JFailed])).
Proof.
  intros input.
  destruct (ListJobs_checks_statuses (T := Samples.JobStatus) input) as (Hbad & _).
  split.
  - apply (Hbad ["failed"] "done" ["nope"] eq_refl).
    + repeat constructor. eexists; reflexivity.
    + reflexivity.
  - destruct (ListJobs_checks_statuses (T := Samples.JobStatus)
                (job.MkListJobsInput "srv-1" ["running"; "failed"]
                   None (Some 5) None None None None)) as (_ & Hok).
    exact (proj2 (Hok [Samples.JRunning; Samples.JFailed] eq_refl)).
Defined.

Lemma RestartResource_succeeds_only_by_delegation_witness :
  @resource.RestartResource _ _ (Samples.backend (fun _ => None)) "crn-7"
  = Some "cron jobs cannot be restarted"
  /\ @resource.RestartResource _ _ (Samples.backend (fun _ => None)) "evm-7"
     = Some "unknown resource type".
Proof.
  split.
  - exact (proj2 (@RestartResource_succeeds_only_by_delegation _ _
                    (Samples.backend (fun _ => None)) "crn-7") eq_refl eq_refl).
  - exact (proj2 (@RestartResource_succeeds_only_by_delegation _ _
                    (Samples.backend (fun _ => None)) "evm-7") eq_refl eq_refl).
Defined.

(** ** The frame around the active screen *)

Section FrameInvariants.

Context {Screen : Type} {screens : tea.Model Screen}
        {errors : ErrorScreen Screen} {theme : Theme}.

Implicit Types (m : StackModel Screen) (e : ModelWithCmd Screen) (w : World).

Lemma fmap_eq_of_lookups {B : Type} (g : ModelWithCmd Screen -> B)
    (l l' : list (ModelWithCmd Screen)) :
  length l' = length l ->
  (forall i e e', l !! i = Some e -> l' !! i = Some e' -> g e' = g e) ->
  g <$> l' = g <$> l.
Proof.
  intros Hlen Hsame. apply list_eq. intros i. rewrite !list_lookup_fmap.
  destruct (l !! i) as [e|] eqn:Hi, (l' !! i) as [e'|] eqn:Hi'; simpl.
  - f_equal. eauto.
  - apply lookup_lt_Some in Hi. apply lookup_ge_None in Hi'. lia.
  - apply lookup_lt_Some in Hi'. apply lookup_ge_None in Hi. lia.
  - reflexivity.
Qed.

Lemma header_of_breadcrumbs m m' :
  Breadcrumb <$> stack m' = Breadcrumb <$> stack m -> Stack.header m' = Stack.header m.
Proof.
  intros E. unfold Stack.header. rewrite !header_loop. now rewrite E.
Qed.

Lemma footer_of_commands m m' :
  Cmd <$> stack m' = Cmd <$> stack m -> Stack.footer m' = Stack.footer m.
Proof.
  intros E. assert (Hlen : length (stack m') = length (stack m)).
  { apply (f_equal length) in E. now rewrite !length_fmap in E. }
  unfold Stack.footer, Stack.footerCommands, Stack.top. rewrite Hlen.
  destruct (length (stack m)) as [|i]; [reflexivity|].
  assert (Hi : (Cmd <$> stack m') !! i = (Cmd <$> stack m) !! i) by now rewrite E.
  rewrite !list_lookup_fmap in Hi.
  destruct (stack m !! i) as [e|], (stack m' !! i) as [e'|];
    simpl in *; try discriminate; [|reflexivity].
  injection Hi as ->. reflexivity.
Qed.

(** X17.  Whatever a dispatch does to the screens, as long as the depth
    of the stack is the same afterwards the header and the footer are the
    same too: a screen cannot change the frame around it by the way it
    handles a message. *)
Theorem frame_changes_only_with_depth w m (msg : tea.Msg) :
  exists w' m' cmd,
    Stack.Update w m msg = Some (w', m', cmd)
    /\ (length (stack m') = length (stack m) ->
        Stack.header m' = Stack.header m /\ Stack.footer m' = Stack.footer m).
Proof.
  destruct (StackFacts.Update_is_Some w m msg) as [[[w' m'] cmd] HU].
  exists w', m', cmd. split; [exact HU|]. intros Hlen.
  destruct (StackMoreFacts.Update_effect _ _ _ _ _ _ HU) as (_ & Hmeta & _).
  split.
  - apply header_of_breadcrumbs, fmap_eq_of_lookups; [exact Hlen|].
    intros i e e' H1 H2. now destruct (Hmeta i e e' H1 H2).
  - apply footer_of_commands, fmap_eq_of_lookups; [exact Hlen|].
    intros i e e' H1 H2. now destruct (Hmeta i e e' H1 H2).
Qed.

(** X18.  The session-size message splits the terminal: its width is the
    recorded width, its top is the height of the header, and its height,
    the top and the height of the footer add up to the recorded height,
    as long as the difference is an [int]. *)
Theorem StackSizeMsg_splits_the_height m (f : string) :
  Stack.footer m = Some f ->
  Int.in_range (height m - lipgloss.Height (Stack.header m) - lipgloss.Height f) ->
  exists sz,
    Stack.StackSizeMsg m = Some sz
    /\ Width sz = width m
    /\ Top sz = lipgloss.Height (Stack.header m)
    /\ Height sz + Top sz + lipgloss.Height f = height m.
Proof.
  intros Hf Hr. unfold Stack.StackSizeMsg. rewrite Hf. simpl.
  eexists. split; [reflexivity|]. simpl.
  rewrite IntFacts.wrap_sub_sub, IntFacts.wrap_in_range by assumption.
  repeat split. lia.
Qed.

End FrameInvariants.

Lemma StackSizeMsg_splits_the_height_witness :
  let m := Demo.stack_of [Demo.services; Demo.deploy] in
  let f := Demo.nl +:+ "Navigation: [Ctrl+C] Quit [Ctrl+D] Previous command "
           +:+ "[Ctrl+S] Copy command to clipboard" in
  @Stack.footer _ Demo.framed m = Some f
  /\ @Stack.StackSizeMsg _ Demo.framed m = Some (MkStackSizeMsg 80 19 3).
Proof.
  intros m f. split; [reflexivity|].
  destruct (@StackSizeMsg_splits_the_height _ Demo.framed m f eq_refl)
    as (sz & Hs & Hw & Ht & Hh).
  { split; vm_compute; discriminate. }
  assert (H3 : lipgloss.Height (@Stack.header _ Demo.framed m) = 3) by reflexivity.
  assert (H2 : lipgloss.Height f = 2) by reflexivity.
  assert (H24 : height m = 24) by reflexivity.
  rewrite Hs. destruct sz as [wd ht tp]. cbn [Width Height Top] in Hw, Ht, Hh.
  rewrite H3 in Ht. rewrite Ht, H2, H24 in Hh.
  assert (E : ht = 19) by lia. rewrite Hw, Ht, E. reflexivity.
Defined.
